(** * running-barcodes: the scan matcher of [src/app/BarcodeScanner.tsx]

    The component [App] keeps three pieces of React state
    ([scannedData], [currentParticipant], [bannerMessage]) and two event
    handlers ([handleBarcodeScanned], [clearStorage]).  A handler is a
    closure over the values of the last render: it reads that snapshot
    and queues state updates and calls to the platform (banner, haptics,
    AsyncStorage).  The embedding follows this shape: a handler is a
    function from the snapshot to the list of actions it performs, in
    source order, and [run] commits the queued updates.  Events are
    handled one at a time, each on the state the previous one has
    committed.

    Numbers are IEEE 754 doubles ([spec_float] of the standard library),
    strings are sequences of code units below 256.  The record list is
    persisted as JSON text; [JSON.stringify] and [JSON.parse] are
    modelled on texts, in the module [JSON]. *)

From Stdlib Require Import ZArith List String Ascii Bool Lia.
From Stdlib Require Import SpecFloat.
Import ListNotations.

Open Scope string_scope.
Open Scope list_scope.
Open Scope Z_scope.

(** ** The JavaScript values the component computes with *)

Module JS.

(** A JavaScript [number] is an IEEE 754 binary64 value. *)
Definition number : Type := spec_float.

Definition prec : Z := 53.
Definition emax : Z := 1024.

Definition NaN : number := S754_nan.
Definition Infinity : number := S754_infinity false.
Definition posZero : number := S754_zero false.
Definition negZero : number := S754_zero true.

(** The Number value for a mathematical integer (round to nearest, ties
    to even; overflow gives an infinity). *)
Definition toNumber (z : Z) : number := binary_normalize prec emax z 0 false.

(** [isNaN(x)] on a number. *)
Definition isNaN (x : number) : bool :=
  match x with
  | S754_nan => true
  | _ => false
  end.

(** [x === y] on numbers: NaN differs from everything, the two zeros
    are equal. *)
Definition strict_equals (x y : number) : bool := SFeqb x y.

(** Strings are sequences of code units; the model keeps the code units
    below 256, one [ascii] each. *)
Definition code (c : ascii) : Z := Z.of_N (N_of_ascii c).

(** White space and line terminators that [parseInt] skips, among the
    code units below 256: TAB, LF, VT, FF, CR, SP and NBSP. *)
Definition isStrWhiteSpaceChar (c : ascii) : bool :=
  let n := code c in
  ((9 <=? n) && (n <=? 13)) || (n =? 32) || (n =? 160).

Definition isDigit (c : ascii) : bool :=
  let n := code c in (48 <=? n) && (n <=? 57).

Definition digitValue (c : ascii) : Z := code c - 48.

(** [String.prototype.trimStart]. *)
Fixpoint trimStart (s : string) : string :=
  match s with
  | String c s' => if isStrWhiteSpaceChar c then trimStart s' else s
  | EmptyString => EmptyString
  end.

(** The longest prefix of [s] made of radix-10 digits. *)
Fixpoint radixDigits (s : string) : list ascii :=
  match s with
  | String c s' => if isDigit c then c :: radixDigits s' else []
  | EmptyString => []
  end.

(** The integer that a sequence of decimal digits denotes. *)
Definition mathInt (ds : list ascii) : Z :=
  fold_left (fun acc c => 10 * acc + digitValue c) ds 0.

(** Steps 4 and 5 of [parseInt]: a leading "-" makes the sign negative,
    and a leading "+" or "-" is removed. *)
Definition hasMinusSign (S : string) : bool :=
  match S with
  | String "-" _ => true
  | _ => false
  end.

Definition stripSign (S : string) : string :=
  match S with
  | String "+" S' => S'
  | String "-" S' => S'
  | _ => S
  end.

(** [parseInt(string, 10)]: skip leading white space, read an optional
    sign, read the longest run of decimal digits and ignore the rest.
    No digit gives NaN; a numeral of value zero after a minus sign
    gives -0.  (Engines may approximate numerals of more than 20
    significant digits; the model rounds the exact integer, as V8 and
    JavaScriptCore do.) *)
Definition parseInt (inputString : string) : number :=
  let S := trimStart inputString in
  let negative := hasMinusSign S in
  let S := stripSign S in
  match radixDigits S with
  | [] => NaN
  | Z =>
      let mathInt := mathInt Z in
      if mathInt =? 0 then (if negative then negZero else posZero)
      else toNumber (if negative then - mathInt else mathInt)
  end.

(** [Number.isInteger(x)]. *)
Definition isInteger (x : number) : bool :=
  match x with
  | S754_zero _ => true
  | S754_finite _ m e => (0 <=? e) || (Z.pos m mod 2 ^ (- e) =? 0)
  | S754_infinity _ | S754_nan => false
  end.

(** [x >= 0] on numbers. *)
Definition isNonNegative (x : number) : bool := SFleb posZero x.

(** [s.startsWith(p)]. *)
Definition startsWith (s p : string) : bool := String.prefix p s.

(** [array.some(f)]. *)
Definition some {A : Type} (f : A -> bool) (l : list A) : bool := existsb f l.

End JS.

(** ** The component state *)

(** [interface ScannedData]. *)
Record ScannedData : Type := {
  participant : string;
  position : JS.number
}.

(** The messages given to [showBanner], one constructor per call site;
    the arguments are the values interpolated into the template. *)
Inductive banner : Type :=
| StorageCleared
    (* 'Storage cleared. All data has been wiped.' *)
| ParticipantScanned (data : string)
    (* `Participant QR Code scanned! Participant: ${data}. Please scan the finish token.` *)
| ParticipantAlreadyScanned (data : string)
    (* `Participant QR Code already scanned! Participant: ${data}` *)
| InvalidQRCode
    (* 'Invalid QR Code. The QR code must start with "G10k".' *)
| FinishTokenScanned (currentParticipant : string) (position : JS.number)
    (* `Finish token scanned! Participant: ${currentParticipant}, Position: ${position}` *)
| InvalidFinishToken.
    (* 'Invalid Finish Token. The finish token must be a numeric value.' *)

(** The three [useState] cells of [App] that the handlers touch. *)
Record State : Type := {
  scannedData : list ScannedData;
  currentParticipant : option string;
  bannerMessage : option banner
}.

(** The state of the first render: [useState([])], [useState(null)],
    [useState(null)]. *)
Definition initialState : State :=
  {| scannedData := []; currentParticipant := None; bannerMessage := None |}.

(** What a handler does: queued state updates and calls to the
    platform. *)
Inductive action : Type :=
| setScannedData (v : list ScannedData)
| setCurrentParticipant (v : option string)
| showBanner (message : banner)
| Haptics_notificationAsync_Success
| AsyncStorage_clear
| console_error (message : string).

(** Outcome of an awaited promise. *)
Inductive settled : Type := fulfilled | rejected.

(** JavaScript truthiness of [currentParticipant : string | null]:
    [null] and the empty string are falsy.  The result is the pending
    participant the [else] branch of [handleBarcodeScanned] works with. *)
Definition truthy (v : option string) : option string :=
  match v with
  | Some "" => None
  | Some s => Some s
  | None => None
  end.

(** [clearStorage]: the in-memory list is emptied and the banner shown
    only once [AsyncStorage.clear()] has resolved; a rejection is caught
    and logged.  [currentParticipant] is not touched. *)
Definition clearStorage (clear_result : settled) : list action :=
  AsyncStorage_clear ::
  match clear_result with
  | fulfilled =>
      [ setScannedData [];
        showBanner StorageCleared;
        Haptics_notificationAsync_Success ]
  | rejected => [ console_error "Failed to clear storage" ]
  end.

(** [handleBarcodeScanned({ type, data })]; [type] is not used. *)
Definition handleBarcodeScanned (st : State) (data : string) : list action :=
  match truthy (currentParticipant st) with
  | None =>
      if JS.startsWith data "G10k" then
        if negb (JS.some (fun item => String.eqb (participant item) data)
                         (scannedData st)) then
          [ setCurrentParticipant (Some data);
            showBanner (ParticipantScanned data);
            Haptics_notificationAsync_Success ]
        else
          [ showBanner (ParticipantAlreadyScanned data) ]
      else
        [ showBanner InvalidQRCode ]
  | Some pending =>
      let position' := JS.parseInt data in
      if negb (JS.isNaN position') then
        if negb (JS.some (fun item => JS.strict_equals (position item) position')
                         (scannedData st)) then
          [ setScannedData
              (scannedData st ++
               [ {| participant := pending; position := position' |} ]);
            showBanner (FinishTokenScanned pending position');
            Haptics_notificationAsync_Success;
            setCurrentParticipant None ]
        else
          []
      else
        [ showBanner InvalidFinishToken ]
  end.

(** Committing one action to the state; calls to the platform leave the
    three cells alone.  [showBanner] stores the message with
    [setBannerMessage]. *)
Definition commit (st : State) (a : action) : State :=
  match a with
  | setScannedData v =>
      {| scannedData := v;
         currentParticipant := currentParticipant st;
         bannerMessage := bannerMessage st |}
  | setCurrentParticipant v =>
      {| scannedData := scannedData st;
         currentParticipant := v;
         bannerMessage := bannerMessage st |}
  | showBanner message =>
      {| scannedData := scannedData st;
         currentParticipant := currentParticipant st;
         bannerMessage := Some message |}
  | Haptics_notificationAsync_Success | AsyncStorage_clear | console_error _ => st
  end.

Definition run (acts : list action) (st : State) : State :=
  fold_left commit acts st.

(** The banners a handler shows, in order. *)
Definition notices (acts : list action) : list banner :=
  flat_map (fun a => match a with showBanner m => [m] | _ => [] end) acts.

(** The two operations of the specification. *)
Definition submitScan (data : string) (st : State) : State :=
  run (handleBarcodeScanned st data) st.

Definition reset (clear_result : settled) (st : State) : State :=
  run (clearStorage clear_result) st.

(** The callback that [showBanner] schedules after the display time:
    [setBannerMessage(null)]. *)
Definition dismissBanner (st : State) : State :=
  {| scannedData := scannedData st;
     currentParticipant := currentParticipant st;
     bannerMessage := None |}.

(** The states of the matcher: [Idle] is the first branch of
    [handleBarcodeScanned], [AwaitingFinish] the second. *)
Definition Idle (st : State) : Prop := truthy (currentParticipant st) = None.

Definition AwaitingFinish (st : State) (pending : string) : Prop :=
  truthy (currentParticipant st) = Some pending.

(** The error taxonomy of the notices. *)
Inductive notice_kind : Type :=
| Accepted | Recorded | Cleared | InvalidFormat | DuplicateEntry.

Definition kind_of (m : banner) : notice_kind :=
  match m with
  | StorageCleared => Cleared
  | ParticipantScanned _ => Accepted
  | ParticipantAlreadyScanned _ => DuplicateEntry
  | InvalidQRCode => InvalidFormat
  | FinishTokenScanned _ _ => Recorded
  | InvalidFinishToken => InvalidFormat
  end.

(** States reachable from the first render by scans, presses of the
    clear button (whatever the storage answers) and banner time-outs. *)
Inductive reachable : State -> Prop :=
| reachable_initial : reachable initialState
| reachable_scan st data :
    reachable st -> reachable (submitScan data st)
| reachable_clear st r :
    reachable st -> reachable (reset r st)
| reachable_dismiss st :
    reachable st -> reachable (dismissBanner st).

(** ** Well-formedness of the record list *)

(** [R] holds between any two elements of [l] taken in list order. *)
Definition pairwise {A : Type} (R : A -> A -> Prop) (l : list A) : Prop :=
  forall (i j : nat) (x y : A),
    (i < j)%nat -> nth_error l i = Some x -> nth_error l j = Some y -> R x y.

(** What the checks of [handleBarcodeScanned] maintain. *)
Record well_formed (st : State) : Prop := {
  wf_participants :
    pairwise (fun r1 r2 => participant r1 <> participant r2) (scannedData st);
  wf_positions :
    pairwise (fun r1 r2 => JS.strict_equals (position r1) (position r2) = false)
             (scannedData st);
  wf_pending_fresh :
    forall p, currentParticipant st = Some p ->
              ~ In p (map participant (scannedData st));
  wf_pending_prefix :
    forall p, currentParticipant st = Some p -> JS.startsWith p "G10k" = true;
  wf_prefix :
    forall r, In r (scannedData st) -> JS.startsWith (participant r) "G10k" = true;
  wf_parsed :
    forall r, In r (scannedData st) -> JS.isNaN (position r) = false
}.

(** ** The payloads that [parseInt] reads *)

(** The optional sign in front of the digits. *)
Inductive sign : Type := NoSign | PlusSign | MinusSign.

Definition sign_text (sg : sign) : string :=
  match sg with
  | NoSign => ""
  | PlusSign => "+"
  | MinusSign => "-"
  end.

Definition is_minus (sg : sign) : bool :=
  match sg with
  | MinusSign => true
  | _ => false
  end.

Definition allChars (p : ascii -> bool) (s : string) : bool :=
  forallb p (list_ascii_of_string s).


(** The Number for the integer [n] read after the sign [sg]; the value
    zero keeps the sign. *)
Definition signedNumber (sg : sign) (n : Z) : JS.number :=
  if n =? 0 then (if is_minus sg then JS.negZero else JS.posZero)
  else JS.toNumber (if is_minus sg then - n else n).

(** ** Persistence: [JSON.stringify] and [JSON.parse] *)

Module JSON.

(** The values [JSON.parse] returns.  The properties of an object are
    listed in the order in which they were created (JavaScript moves
    keys that are array indices to the front when it enumerates them;
    the list does not). *)
#[warnings="-register-all"]
Inductive value : Type :=
| Null
| Bool (b : bool)
| Number (n : JS.number)
| Str (s : string)
| Array (elements : list value)
| Object (properties : list (string * value)).

(** Outcome of a library call: a result, the [SyntaxError] that
    [JSON.parse] throws, or an input that leaves the part of JavaScript
    the model covers (a code unit above 255, a Number that is not an
    integer below 2^53 in magnitude). *)
Inductive result (A : Type) : Type :=
| Ok (a : A)
| SyntaxError
| Unmodelled.

Arguments Ok {A} a.
Arguments SyntaxError {A}.
Arguments Unmodelled {A}.

Definition bind {A B : Type} (r : result A) (f : A -> result B) : result B :=
  match r with
  | Ok a => f a
  | SyntaxError => SyntaxError
  | Unmodelled => Unmodelled
  end.

Notation "x <- r ;; k" := (bind r (fun x => k))
  (at level 61, r at next level, right associativity).

Notation "' pat <- r ;; k" := (bind r (fun x => let 'pat := x in k))
  (at level 61, pat pattern, r at next level, right associativity).

(** *** Numbers as text *)

Definition digitChar (d : Z) : ascii := ascii_of_N (Z.to_N (48 + d)).

(** The decimal digits of [n], most significant first, in front of
    [acc]. *)
Fixpoint decimalDigits (fuel : nat) (n : Z) (acc : string) : string :=
  match fuel with
  | O => acc
  | S fuel' =>
      let acc' := String (digitChar (n mod 10)) acc in
      if n <? 10 then acc' else decimalDigits fuel' (n / 10) acc'
  end.

Definition decimal (n : Z) : string :=
  decimalDigits (S (Z.to_nat (Z.log2 n))) n "".

(** The mathematical value of a Number, when it is an integer. *)
Definition integerValue (x : JS.number) : option Z :=
  match x with
  | S754_zero _ => Some 0
  | S754_finite s m e =>
      let magnitude :=
        if 0 <=? e then Some (Z.pos m * 2 ^ e)
        else if Z.pos m mod 2 ^ (- e) =? 0 then Some (Z.pos m / 2 ^ (- e))
        else None in
      option_map (fun v => if s then - v else v) magnitude
  | S754_infinity _ | S754_nan => None
  end.

(** [Number::toString(x, 10)].  An integer below 2^53 in magnitude is
    printed with all its digits; the shortest-digits search that the
    other finite Numbers need is not modelled. *)
Definition Number_toString (x : JS.number) : result string :=
  match x with
  | S754_nan => Ok "NaN"
  | S754_zero _ => Ok "0"
  | S754_infinity false => Ok "Infinity"
  | S754_infinity true => Ok "-Infinity"
  | S754_finite s _ _ =>
      match integerValue x with
      | Some z =>
          if Z.abs z <? 2 ^ 53
          then Ok ((if s then "-" else "") ++ decimal (Z.abs z))%string
          else Unmodelled
      | None => Unmodelled
      end
  end.

Definition isFinite (x : JS.number) : bool :=
  match x with
  | S754_zero _ | S754_finite _ _ _ => true
  | S754_infinity _ | S754_nan => false
  end.

(** *** Strings as text *)

Definition quotation_mark : ascii := ascii_of_nat 34.
Definition reverse_solidus : ascii := ascii_of_nat 92.

Definition hexChar (d : Z) : ascii :=
  if d <? 10 then ascii_of_N (Z.to_N (48 + d)) else ascii_of_N (Z.to_N (87 + d)).

(** One code unit inside [QuoteJSONString]: the two-character escapes,
    [\u00xx] for the other control characters, the code unit itself
    otherwise. *)
Definition quoteChar (c : ascii) : string :=
  let n := JS.code c in
  if n =? 8 then String reverse_solidus "b"
  else if n =? 9 then String reverse_solidus "t"
  else if n =? 10 then String reverse_solidus "n"
  else if n =? 12 then String reverse_solidus "f"
  else if n =? 13 then String reverse_solidus "r"
  else if n =? 34 then String reverse_solidus (String quotation_mark "")
  else if n =? 92 then String reverse_solidus (String reverse_solidus "")
  else if n <? 32 then
    String reverse_solidus
      (String "u" (String "0" (String "0"
         (String (hexChar (n / 16)) (String (hexChar (n mod 16)) "")))))
  else String c "".

Fixpoint quoteChars (s : string) : string :=
  match s with
  | String c s' => (quoteChar c ++ quoteChars s')%string
  | EmptyString => EmptyString
  end.

(** [QuoteJSONString(s)]. *)
Definition QuoteJSONString (s : string) : string :=
  String quotation_mark (quoteChars s ++ String quotation_mark "")%string.

(** *** [JSON.stringify] of a record list *)

(** [SerializeJSONProperty] of a Number: a Number that is not finite is
    written as [null]. *)
Definition serializeNumber (x : JS.number) : result string :=
  if isFinite x then Number_toString x else Ok "null".

(** [SerializeJSONObject] of a [ScannedData]: the two properties in the
    order of the object literal in [handleBarcodeScanned]. *)
Definition serializeScannedData (item : ScannedData) : result string :=
  position_text <- serializeNumber (position item) ;;
  Ok ("{" ++ QuoteJSONString "participant" ++ ":" ++ QuoteJSONString (participant item)
      ++ "," ++ QuoteJSONString "position" ++ ":" ++ position_text ++ "}")%string.

(** The elements of [SerializeJSONArray], each after a comma. *)
Fixpoint serializeRest (items : list ScannedData) : result string :=
  match items with
  | [] => Ok ""
  | item :: items' =>
      text <- serializeScannedData item ;;
      rest <- serializeRest items' ;;
      Ok ("," ++ text ++ rest)%string
  end.

(** [JSON.stringify(scannedData)]. *)
Definition stringify (items : list ScannedData) : result string :=
  match items with
  | [] => Ok "[]"
  | item :: items' =>
      text <- serializeScannedData item ;;
      rest <- serializeRest items' ;;
      Ok ("[" ++ text ++ rest ++ "]")%string
  end.

(** *** [JSON.parse] *)

Inductive token : Type :=
| TLBrace | TRBrace | TLBracket | TRBracket | TColon | TComma
| TString (s : string)
| TNumber (n : JS.number)
| TTrue | TFalse | TNull.

(** The containers being read: an array with the elements read so far
    (last first), an object with the properties read so far (last
    first), an object whose next value belongs to [key]. *)
Inductive frame : Type :=
| InArray (elements : list value)
| InObject (properties : list (string * value))
| InProperty (properties : list (string * value)) (key : string).

(** What the grammar allows next. *)
Inductive expecting : Type :=
| AValue             (* a value *)
| AValueOrClose      (* after "[": a value or "]" *)
| AKeyOrClose        (* after "{": a key or "}" *)
| AKey               (* after "," in an object: a key *)
| AColon             (* after a key *)
| ACommaOrClose      (* after a value in a container *)
| TheEnd (v : value) (* after the outermost value *).

Definition config : Type := (expecting * list frame)%type.

(** [CreateDataProperty]: a repeated key keeps its place and takes the
    new value.  [properties] lists the last property first. *)
Fixpoint defineProperty (properties : list (string * value)) (key : string) (v : value)
  : option (list (string * value)) :=
  match properties with
  | [] => None
  | (k, v') :: rest =>
      if String.eqb k key then Some ((k, v) :: rest)
      else option_map (cons (k, v')) (defineProperty rest key v)
  end.

Definition addProperty (properties : list (string * value)) (key : string) (v : value)
  : list (string * value) :=
  match defineProperty properties key v with
  | Some properties' => properties'
  | None => (key, v) :: properties
  end.

(** A value is complete: it is the result, an element of the enclosing
    array or the value of the pending property. *)
Definition complete (v : value) (stack : list frame) : result config :=
  match stack with
  | [] => Ok (TheEnd v, [])
  | InArray elements :: stack' => Ok (ACommaOrClose, InArray (v :: elements) :: stack')
  | InProperty properties key :: stack' =>
      Ok (ACommaOrClose, InObject (addProperty properties key v) :: stack')
  | InObject _ :: _ => SyntaxError
  end.

(** One token of the grammar. *)
Definition feed (t : token) (c : config) : result config :=
  let '(e, stack) := c in
  match e, t with
  | (AValue | AValueOrClose), TNull => complete Null stack
  | (AValue | AValueOrClose), TTrue => complete (Bool true) stack
  | (AValue | AValueOrClose), TFalse => complete (Bool false) stack
  | (AValue | AValueOrClose), TNumber n => complete (Number n) stack
  | (AValue | AValueOrClose), TString s => complete (Str s) stack
  | (AValue | AValueOrClose), TLBracket => Ok (AValueOrClose, InArray [] :: stack)
  | (AValue | AValueOrClose), TLBrace => Ok (AKeyOrClose, InObject [] :: stack)
  | AValueOrClose, TRBracket =>
      match stack with
      | InArray [] :: stack' => complete (Array []) stack'
      | _ => SyntaxError
      end
  | AKeyOrClose, TRBrace =>
      match stack with
      | InObject [] :: stack' => complete (Object []) stack'
      | _ => SyntaxError
      end
  | (AKeyOrClose | AKey), TString key =>
      match stack with
      | InObject properties :: stack' => Ok (AColon, InProperty properties key :: stack')
      | _ => SyntaxError
      end
  | AColon, TColon => Ok (AValue, stack)
  | ACommaOrClose, TComma =>
      match stack with
      | InArray _ :: _ => Ok (AValue, stack)
      | InObject _ :: _ => Ok (AKey, stack)
      | _ => SyntaxError
      end
  | ACommaOrClose, TRBracket =>
      match stack with
      | InArray elements :: stack' => complete (Array (rev elements)) stack'
      | _ => SyntaxError
      end
  | ACommaOrClose, TRBrace =>
      match stack with
      | InObject properties :: stack' => complete (Object (rev properties)) stack'
      | _ => SyntaxError
      end
  | _, _ => SyntaxError
  end.

(** The rest of [s] after its leading decimal digits. *)
Fixpoint dropDigits (s : string) : string :=
  match s with
  | String c s' => if JS.isDigit c then dropDigits s' else s
  | EmptyString => EmptyString
  end.

(** The Number value for [m / d], correctly rounded. *)
Definition roundRatio (negative : bool) (m d : positive) : JS.number :=
  let '(q, e, l) := SFdiv_core_binary JS.prec JS.emax (Z.pos m) 0 (Z.pos d) 0 in
  binary_round_aux JS.prec JS.emax negative q e l.

(** The Number value for [m * 10 ^ e] with the given sign; zero keeps
    the sign. *)
Definition scaledNumber (negative : bool) (m e : Z) : JS.number :=
  match m with
  | Z.pos p =>
      if 0 <=? e then JS.toNumber (if negative then - (m * 10 ^ e) else m * 10 ^ e)
      else roundRatio negative p (Z.to_pos (10 ^ (- e)))
  | _ => if negative then JS.negZero else JS.posZero
  end.

(** An integer part may start with "0" only if it is "0". *)
Definition superfluousZero (int : list ascii) : bool :=
  match int with
  | "0"%char :: _ :: _ => true
  | _ => false
  end.

(** The optional fraction of a JSON number: its digits and the rest of
    the literal. *)
Definition fractionOf (s : string) : result (list ascii * string) :=
  match s with
  | String "." s' =>
      match JS.radixDigits s' with
      | [] => SyntaxError
      | ds => Ok (ds, dropDigits s')
      end
  | _ => Ok ([], s)
  end.

(** The optional exponent of a JSON number: its value and the rest of
    the literal. *)
Definition exponentOf (s : string) : result (Z * string) :=
  match s with
  | String ("e" | "E") s' =>
      let negative := JS.hasMinusSign s' in
      let s' := JS.stripSign s' in
      match JS.radixDigits s' with
      | [] => SyntaxError
      | ds => Ok (if negative then - JS.mathInt ds else JS.mathInt ds, dropDigits s')
      end
  | _ => Ok (0, s)
  end.

(** A JSON number: an optional "-", an integer part, an optional
    fraction, an optional exponent, and nothing else. *)
Definition numberOfLiteral (literal : string) : result JS.number :=
  let negative := JS.hasMinusSign literal in
  let s := if negative then JS.stripSign literal else literal in
  let int := JS.radixDigits s in
  match int with
  | [] => SyntaxError
  | _ =>
      if superfluousZero int then SyntaxError
      else
        ' (frac, s) <- fractionOf (dropDigits s) ;;
        ' (exponent, s) <- exponentOf s ;;
        match s with
        | EmptyString =>
            Ok (scaledNumber negative (JS.mathInt (int ++ frac))
                             (exponent - Z.of_nat (List.length frac)))
        | _ => SyntaxError
        end
  end.

(** Where the scanner is: between tokens, inside a string (with the
    code units read so far), after a reverse solidus, inside a [\u]
    escape (with the value and number of the hexadecimal digits read),
    inside a number, inside [true], [false] or [null]. *)
Inductive mode : Type :=
| Between
| InString (read : string)
| InEscape (read : string)
| InUnicode (read : string) (v : Z) (count : nat)
| InNumber (read : string)
| InWord (rest : string) (t : token).

Definition hexValue (c : ascii) : option Z :=
  let n := JS.code c in
  if (48 <=? n) && (n <=? 57) then Some (n - 48)
  else if (97 <=? n) && (n <=? 102) then Some (n - 87)
  else if (65 <=? n) && (n <=? 70) then Some (n - 55)
  else None.

Definition isNumberChar (c : ascii) : bool :=
  let n := JS.code c in
  JS.isDigit c || (n =? 43) || (n =? 45) || (n =? 46) || (n =? 69) || (n =? 101).

Definition snoc (s : string) (c : ascii) : string := (s ++ String c "")%string.

(** The code unit [c] between tokens: white space is skipped, a
    punctuator is a token, the rest opens a string, a number or a
    word. *)
Definition between (c : ascii) (cfg : config) : result (mode * config) :=
  let n := JS.code c in
  if (n =? 32) || (n =? 9) || (n =? 10) || (n =? 13) then Ok (Between, cfg)
  else if n =? 123 then cfg' <- feed TLBrace cfg ;; Ok (Between, cfg')
  else if n =? 125 then cfg' <- feed TRBrace cfg ;; Ok (Between, cfg')
  else if n =? 91 then cfg' <- feed TLBracket cfg ;; Ok (Between, cfg')
  else if n =? 93 then cfg' <- feed TRBracket cfg ;; Ok (Between, cfg')
  else if n =? 58 then cfg' <- feed TColon cfg ;; Ok (Between, cfg')
  else if n =? 44 then cfg' <- feed TComma cfg ;; Ok (Between, cfg')
  else if n =? 34 then Ok (InString "", cfg)
  else if (n =? 45) || JS.isDigit c then Ok (InNumber (String c ""), cfg)
  else if n =? 116 then Ok (InWord "rue" TTrue, cfg)
  else if n =? 102 then Ok (InWord "alse" TFalse, cfg)
  else if n =? 110 then Ok (InWord "ull" TNull, cfg)
  else SyntaxError.

(** One code unit of the text. *)
Definition step (m : mode) (c : ascii) (cfg : config) : result (mode * config) :=
  let n := JS.code c in
  match m with
  | Between => between c cfg
  | InString read =>
      if n =? 34 then cfg' <- feed (TString read) cfg ;; Ok (Between, cfg')
      else if n =? 92 then Ok (InEscape read, cfg)
      else if n <? 32 then SyntaxError
      else Ok (InString (snoc read c), cfg)
  | InEscape read =>
      if (n =? 34) || (n =? 92) || (n =? 47) then Ok (InString (snoc read c), cfg)
      else if n =? 98 then Ok (InString (snoc read (ascii_of_nat 8)), cfg)
      else if n =? 102 then Ok (InString (snoc read (ascii_of_nat 12)), cfg)
      else if n =? 110 then Ok (InString (snoc read (ascii_of_nat 10)), cfg)
      else if n =? 114 then Ok (InString (snoc read (ascii_of_nat 13)), cfg)
      else if n =? 116 then Ok (InString (snoc read (ascii_of_nat 9)), cfg)
      else if n =? 117 then Ok (InUnicode read 0 0, cfg)
      else SyntaxError
  | InUnicode read v count =>
      match hexValue c with
      | None => SyntaxError
      | Some h =>
          let v' := 16 * v + h in
          match count with
          | 3%nat =>
              if v' <? 256 then Ok (InString (snoc read (ascii_of_N (Z.to_N v'))), cfg)
              else Unmodelled
          | _ => Ok (InUnicode read v' (S count), cfg)
          end
      end
  | InNumber read =>
      if isNumberChar c then Ok (InNumber (snoc read c), cfg)
      else
        x <- numberOfLiteral read ;;
        cfg' <- feed (TNumber x) cfg ;;
        between c cfg'
  | InWord rest t =>
      match rest with
      | String c' rest' =>
          if Ascii.eqb c c' then
            match rest' with
            | EmptyString => cfg' <- feed t cfg ;; Ok (Between, cfg')
            | _ => Ok (InWord rest' t, cfg)
            end
          else SyntaxError
      | EmptyString => SyntaxError
      end
  end.

(** The end of the text: a number may end there, and the outermost
    value must be complete. *)
Definition finish (m : mode) (cfg : config) : result value :=
  cfg' <-
    match m with
    | Between => Ok cfg
    | InNumber read => x <- numberOfLiteral read ;; feed (TNumber x) cfg
    | _ => SyntaxError
    end ;;
  match cfg' with
  | (TheEnd v, _) => Ok v
  | _ => SyntaxError
  end.

Fixpoint scan (m : mode) (cfg : config) (text : string) : result value :=
  match text with
  | String c text' =>
      '(m', cfg') <- step m c cfg ;;
      scan m' cfg' text'
  | EmptyString => finish m cfg
  end.

(** [JSON.parse(text)]. *)
Definition parse (text : string) : result value := scan Between (AValue, []) text.

(** The JavaScript value of a typed record list. *)
Definition ofScannedData (item : ScannedData) : value :=
  Object [ ("participant", Str (participant item));
           ("position", Number (position item)) ].

Definition ofRecordList (items : list ScannedData) : value :=
  Array (map ofScannedData items).

(** *** The two storage effects of the component *)

(** [saveScannedData]: the text given to
    [AsyncStorage.setItem('scannedData', ...)]. *)
Definition saveScannedData (scannedData : list ScannedData) : result string :=
  stringify scannedData.

(** [loadScannedData], given the answer of
    [AsyncStorage.getItem('scannedData')]: the value passed to
    [setScannedData], if any.  [null] and the empty string are falsy and
    nothing is set; a [SyntaxError] is caught and logged, and nothing is
    set either. *)
Definition loadScannedData (storedData : option string) : result (option value) :=
  match storedData with
  | None => Ok None
  | Some "" => Ok None
  | Some text => v <- parse text ;; Ok (Some v)
  end.

(** *** The text of the records the theorems speak about *)

(** The text of an integer: a minus sign if it is negative, then its
    digits. *)
Definition integerText (z : Z) : string :=
  String.append (if z <? 0 then "-" else "") (decimal (Z.abs z)).

(** The text of a Record whose position is an integer. *)
Definition recordText (p : string) (z : Z) : string :=
  ("{" ++ QuoteJSONString "participant" ++ ":" ++ QuoteJSONString p
   ++ "," ++ QuoteJSONString "position" ++ ":" ++ integerText z ++ "}")%string.

End JSON.

(** A position that is the Number of an integer below 2^53 in
    magnitude. *)
Definition safePosition (r : ScannedData) : Prop :=
  exists z, Z.abs z < 2 ^ 53 /\ position r = JS.toNumber z.


(** ** The mounted component: events, effects and the storage *)

(** What happens to the mounted component: the camera reports a code,
    the "Clear Storage" button is pressed (and [AsyncStorage.clear()]
    settles one way or the other), the time-out that [showBanner]
    scheduled fires. *)
Inductive event : Type :=
| Scanned (data : string)
| ClearPressed (clear_result : settled)
| BannerTimeout.

Definition handle (e : event) (st : State) : State :=
  match e with
  | Scanned data => submitScan data st
  | ClearPressed clear_result => reset clear_result st
  | BannerTimeout => dismissBanner st
  end.

Definition handleAll (es : list event) (st : State) : State :=
  fold_left (fun s e => handle e s) es st.



(** The component together with the item that [AsyncStorage] keeps under
    the key 'scannedData' ([None]: no such item).  The storage performs
    the operations it is given in the order in which they were issued. *)
Record Device : Type := {
  app : State;
  storedData : option string
}.

(** Whether a handler has given [scannedData] a new array, so that the
    effect with the dependency [[scannedData]] runs after the render. *)
Definition setsScannedData (acts : list action) : bool :=
  existsb (fun a => match a with setScannedData _ => true | _ => false end) acts.

(** The effect [saveScannedData]: [AsyncStorage.setItem('scannedData',
    JSON.stringify(scannedData))]; a rejection is caught and logged. *)
Definition saveEffect (save_result : settled) (d : Device) : JSON.result Device :=
  match save_result with
  | fulfilled =>
      JSON.bind (JSON.saveScannedData (scannedData (app d)))
                (fun text => JSON.Ok {| app := app d; storedData := Some text |})
  | rejected => JSON.Ok d
  end.

(** The actions of a handler are committed, the component renders, and
    the save effect runs if [scannedData] is a new array. *)
Definition afterHandler (acts : list action) (save_result : settled) (d : Device)
  : JSON.result Device :=
  let d' := {| app := run acts (app d); storedData := storedData d |} in
  if setsScannedData acts then saveEffect save_result d' else JSON.Ok d'.

(** The events of the device carry the outcome of the storage calls they
    lead to. *)
Inductive deviceEvent : Type :=
| DScanned (data : string) (save_result : settled)
| DClearPressed (clear_result save_result : settled)
| DBannerTimeout.

(** [AsyncStorage.clear()] removes every item when it succeeds and is
    taken to remove nothing when it fails. *)
Definition deviceStep (e : deviceEvent) (d : Device) : JSON.result Device :=
  match e with
  | DScanned data save_result =>
      afterHandler (handleBarcodeScanned (app d) data) save_result d
  | DClearPressed clear_result save_result =>
      let d1 :=
        match clear_result with
        | fulfilled => {| app := app d; storedData := None |}
        | rejected => d
        end in
      afterHandler (clearStorage clear_result) save_result d1
  | DBannerTimeout =>
      JSON.Ok {| app := dismissBanner (app d); storedData := storedData d |}
  end.




(** The typed view of a loaded value: an array of objects with exactly
    the properties [participant] (a string) and [position] (a number), in
    this order, as the component writes them.  TypeScript does not check
    the shape; other values are outside the typed state of the model. *)
Definition asScannedData (v : JSON.value) : option ScannedData :=
  match v with
  | JSON.Object [ (k1, JSON.Str p); (k2, JSON.Number x) ] =>
      if String.eqb k1 "participant" && String.eqb k2 "position"
      then Some {| participant := p; position := x |}
      else None
  | _ => None
  end.

Fixpoint asScannedDataList (vs : list JSON.value) : option (list ScannedData) :=
  match vs with
  | [] => Some []
  | v :: vs' =>
      match asScannedData v, asScannedDataList vs' with
      | Some r, Some rs => Some (r :: rs)
      | _, _ => None
      end
  end.

Definition asRecordList (v : JSON.value) : option (list ScannedData) :=
  match v with
  | JSON.Array vs => asScannedDataList vs
  | _ => None
  end.

(** Mounting the component on a device whose storage holds [stored].
    The first render has the initial state; its two effects issue
    [getItem] and then [setItem] with the text of the empty list.  When
    the stored text arrives it is parsed and given to [setScannedData],
    and the save effect runs again.  The stored data are taken to arrive
    before the first event. *)
Definition startup (stored : option string) (get_result mount_save load_save : settled)
  : JSON.result Device :=
  JSON.bind (saveEffect mount_save {| app := initialState; storedData := stored |})
    (fun mounted =>
       match get_result with
       | rejected => JSON.Ok mounted
       | fulfilled =>
           match JSON.loadScannedData stored with
           | JSON.Ok None => JSON.Ok mounted
           | JSON.SyntaxError => JSON.Ok mounted
           | JSON.Unmodelled => JSON.Unmodelled
           | JSON.Ok (Some v) =>
               match asRecordList v with
               | None => JSON.Unmodelled
               | Some l =>
                   saveEffect load_save
                     {| app := {| scannedData := l;
                                  currentParticipant := None;
                                  bannerMessage := None |};
                        storedData := storedData mounted |}
               end
           end
       end).

(** The storage holds the text of the current record list. *)
Definition synced (d : Device) : Prop :=
  exists text,
    JSON.saveScannedData (scannedData (app d)) = JSON.Ok text
    /\ storedData d = Some text.

(** What a Record is after it has been saved and loaded: a position
    that is not finite has become [null], and -0 has become 0. *)
Definition reloadedPosition (x : JS.number) : JSON.value :=
  match x with
  | S754_nan | S754_infinity _ => JSON.Null
  | S754_zero _ => JSON.Number JS.posZero
  | S754_finite _ _ _ => JSON.Number x
  end.

Definition reloaded (item : ScannedData) : JSON.value :=
  JSON.Object [ ("participant", JSON.Str (participant item));
                ("position", reloadedPosition (position item)) ].

(** The positions whose text the model can write: the integers below
    2^53 in magnitude, the zeros, the infinities and NaN. *)
Definition printablePosition (r : ScannedData) : Prop :=
  safePosition r \/ JSON.isFinite (position r) = false \/ position r = JS.negZero.

(** ** Basic facts about the JavaScript primitives *)

Lemma strict_equals_sym (x y : JS.number) :
  JS.strict_equals x y = JS.strict_equals y x.
Proof.
  unfold JS.strict_equals, SFeqb, SFcompare.
  destruct x as [sx | sx | | sx mx ex], y as [sy | sy | | sy my ey];
    try reflexivity;
    try (destruct sx, sy; reflexivity);
    try (destruct sx; reflexivity);
    try (destruct sy; reflexivity).
  assert (Hm : Pos.compare_cont Eq my mx = CompOpp (Pos.compare_cont Eq mx my))
    by (symmetry; apply (Pos.compare_cont_antisym mx my Eq)).
  rewrite (Z.compare_antisym ex ey), Hm.
  destruct sx, sy; try reflexivity;
    destruct (ex ?= ey); simpl; try reflexivity;
    destruct (Pos.compare_cont Eq mx my); reflexivity.
Qed.


Lemma strict_equals_NaN_r (x : JS.number) : JS.strict_equals x JS.NaN = false.
Proof. destruct x as [s | s | | s m e]; reflexivity. Qed.

Lemma some_false_iff {A : Type} (f : A -> bool) (l : list A) :
  JS.some f l = false <-> forall x, In x l -> f x = false.
Proof.
  unfold JS.some. induction l as [| a l IH]; simpl.
  - split; [intros _ x [] | reflexivity].
  - rewrite orb_false_iff, IH. split.
    + intros [Ha Hl] x [<- | Hx]; auto.
    + intros H. split; [apply H; now left | intros x Hx; apply H; now right].
Qed.

Lemma some_participant_iff (data : string) (l : list ScannedData) :
  JS.some (fun item => String.eqb (participant item) data) l = true
  <-> In data (map participant l).
Proof.
  unfold JS.some. rewrite existsb_exists, in_map_iff. split.
  - intros [r [Hr He]]. apply String.eqb_eq in He. now exists r.
  - intros [r [He Hr]]. exists r. split; [assumption | now apply String.eqb_eq].
Qed.

Lemma truthy_Some (v : option string) (p : string) :
  truthy v = Some p -> v = Some p /\ p <> "".
Proof.
  destruct v as [[| c s] |]; simpl; intros H; try discriminate.
  injection H as <-. split; [reflexivity | discriminate].
Qed.

Lemma startsWith_nonempty (data : string) :
  JS.startsWith data "G10k" = true -> truthy (Some data) = Some data.
Proof. destruct data; simpl; [discriminate | reflexivity]. Qed.

(** ** The two branches of [handleBarcodeScanned], case by case *)

Section Branches.

Variable st : State.
Variable data : string.

Lemma idle_invalid :
  Idle st -> JS.startsWith data "G10k" = false ->
  handleBarcodeScanned st data = [ showBanner InvalidQRCode ].
Proof.
  unfold Idle, handleBarcodeScanned. intros -> ->. reflexivity.
Qed.

Lemma idle_duplicate :
  Idle st -> JS.startsWith data "G10k" = true ->
  In data (map participant (scannedData st)) ->
  handleBarcodeScanned st data = [ showBanner (ParticipantAlreadyScanned data) ].
Proof.
  unfold Idle, handleBarcodeScanned. intros -> -> Hin.
  apply some_participant_iff in Hin. rewrite Hin. reflexivity.
Qed.

Lemma idle_accept :
  Idle st -> JS.startsWith data "G10k" = true ->
  ~ In data (map participant (scannedData st)) ->
  handleBarcodeScanned st data =
    [ setCurrentParticipant (Some data);
      showBanner (ParticipantScanned data);
      Haptics_notificationAsync_Success ].
Proof.
  unfold Idle, handleBarcodeScanned. intros -> -> Hin.
  destruct (JS.some _ _) eqn:Hs; [| reflexivity].
  apply some_participant_iff in Hs. contradiction.
Qed.

Variable pending : string.

Lemma awaiting_invalid :
  AwaitingFinish st pending -> JS.isNaN (JS.parseInt data) = true ->
  handleBarcodeScanned st data = [ showBanner InvalidFinishToken ].
Proof.
  unfold AwaitingFinish, handleBarcodeScanned. intros -> ->. reflexivity.
Qed.

Lemma awaiting_duplicate :
  AwaitingFinish st pending -> JS.isNaN (JS.parseInt data) = false ->
  JS.some (fun item => JS.strict_equals (position item) (JS.parseInt data))
          (scannedData st) = true ->
  handleBarcodeScanned st data = [].
Proof.
  unfold AwaitingFinish, handleBarcodeScanned. intros -> -> ->. reflexivity.
Qed.

Lemma awaiting_record :
  AwaitingFinish st pending -> JS.isNaN (JS.parseInt data) = false ->
  JS.some (fun item => JS.strict_equals (position item) (JS.parseInt data))
          (scannedData st) = false ->
  handleBarcodeScanned st data =
    [ setScannedData
        (scannedData st ++
         [ {| participant := pending; position := JS.parseInt data |} ]);
      showBanner (FinishTokenScanned pending (JS.parseInt data));
      Haptics_notificationAsync_Success;
      setCurrentParticipant None ].
Proof.
  unfold AwaitingFinish, handleBarcodeScanned. intros -> -> ->. reflexivity.
Qed.

End Branches.

(** Every scan falls in one of the six cases. *)
Lemma handleBarcodeScanned_cases (st : State) (data : string) :
  handleBarcodeScanned st data = [ showBanner InvalidQRCode ]
  \/ handleBarcodeScanned st data = [ showBanner (ParticipantAlreadyScanned data) ]
  \/ (Idle st /\ JS.startsWith data "G10k" = true /\
      ~ In data (map participant (scannedData st)) /\
      handleBarcodeScanned st data =
        [ setCurrentParticipant (Some data);
          showBanner (ParticipantScanned data);
          Haptics_notificationAsync_Success ])
  \/ handleBarcodeScanned st data = [ showBanner InvalidFinishToken ]
  \/ handleBarcodeScanned st data = []
  \/ (exists pending,
        AwaitingFinish st pending /\
        JS.isNaN (JS.parseInt data) = false /\
        JS.some (fun item => JS.strict_equals (position item) (JS.parseInt data))
                (scannedData st) = false /\
        handleBarcodeScanned st data =
          [ setScannedData
              (scannedData st ++
               [ {| participant := pending; position := JS.parseInt data |} ]);
            showBanner (FinishTokenScanned pending (JS.parseInt data));
            Haptics_notificationAsync_Success;
            setCurrentParticipant None ]).
Proof.
  destruct (truthy (currentParticipant st)) as [pending |] eqn:Hp.
  - destruct (JS.isNaN (JS.parseInt data)) eqn:Hn.
    + right; right; right; left. now apply awaiting_invalid with pending.
    + destruct (JS.some (fun item => JS.strict_equals (position item) (JS.parseInt data))
                        (scannedData st)) eqn:Hs.
      * right; right; right; right; left. now apply awaiting_duplicate with pending.
      * right; right; right; right; right. exists pending.
        repeat split; try assumption. now apply awaiting_record.
  - destruct (JS.startsWith data "G10k") eqn:Hpre.
    + destruct (in_dec string_dec data (map participant (scannedData st))) as [Hin | Hin].
      * right; left. now apply idle_duplicate.
      * right; right; left. repeat split; try assumption. now apply idle_accept.
    + left. now apply idle_invalid.
Qed.

(** ** Claims about a single scan *)

(** C4.  While AwaitingFinish, a payload that parses to a position some
    Record already holds does nothing at all: the handler performs no
    action, so the whole state (RecordList, pending participant, banner)
    is as before, the matcher is still AwaitingFinish with the same
    participant, and no notice is shown. *)
Theorem duplicate_position_is_silent_noop (st : State) (pending data : string) :
  AwaitingFinish st pending ->
  JS.isNaN (JS.parseInt data) = false ->
  JS.some (fun item => JS.strict_equals (position item) (JS.parseInt data))
          (scannedData st) = true ->
  handleBarcodeScanned st data = []
  /\ submitScan data st = st
  /\ AwaitingFinish (submitScan data st) pending
  /\ notices (handleBarcodeScanned st data) = [].
Proof.
  intros Hp Hn Hs. unfold submitScan.
  rewrite (awaiting_duplicate st data pending Hp Hn Hs). simpl.
  repeat split. exact Hp.
Qed.

(** C5.  While AwaitingFinish, a payload that parses to a position no
    Record holds appends exactly one Record, pairing the pending
    participant with that position, at the end of RecordList, clears the
    pending participant (the matcher is Idle again) and shows the
    "pair recorded" notice. *)
Theorem fresh_position_records_pair (st : State) (pending data : string) :
  AwaitingFinish st pending ->
  JS.isNaN (JS.parseInt data) = false ->
  JS.some (fun item => JS.strict_equals (position item) (JS.parseInt data))
          (scannedData st) = false ->
  scannedData (submitScan data st) =
    scannedData st ++ [ {| participant := pending; position := JS.parseInt data |} ]
  /\ currentParticipant (submitScan data st) = None
  /\ Idle (submitScan data st)
  /\ notices (handleBarcodeScanned st data) =
       [ FinishTokenScanned pending (JS.parseInt data) ]
  /\ map kind_of (notices (handleBarcodeScanned st data)) = [ Recorded ].
Proof.
  intros Hp Hn Hs. unfold submitScan.
  rewrite (awaiting_record st data pending Hp Hn Hs). simpl.
  repeat split.
Qed.


(** C7.  While Idle, scanning again a participant identifier (a payload
    with the prefix "G10k") that some Record already holds is rejected:
    RecordList and the empty pending slot are as before, the matcher
    stays Idle, and the "already scanned" notice, of kind DuplicateEntry,
    is shown. *)
Theorem rescanned_participant_rejected (st : State) (data : string) :
  Idle st ->
  JS.startsWith data "G10k" = true ->
  In data (map participant (scannedData st)) ->
  scannedData (submitScan data st) = scannedData st
  /\ currentParticipant (submitScan data st) = currentParticipant st
  /\ Idle (submitScan data st)
  /\ notices (handleBarcodeScanned st data) = [ ParticipantAlreadyScanned data ]
  /\ map kind_of (notices (handleBarcodeScanned st data)) = [ DuplicateEntry ].
Proof.
  intros Hi Hpre Hin. unfold submitScan.
  rewrite (idle_duplicate st data Hi Hpre Hin). simpl.
  repeat split. exact Hi.
Qed.

Lemma submitScan_scannedData (st : State) (data : string) :
  scannedData (submitScan data st) = scannedData st
  \/ exists r, scannedData (submitScan data st) = scannedData st ++ [r].
Proof.
  unfold submitScan.
  destruct (handleBarcodeScanned_cases st data)
    as [H | [H | [(_ & _ & _ & H) | [H | [H | (pending & _ & _ & _ & H)]]]]];
    rewrite H; simpl; try (left; reflexivity).
  right. eexists. reflexivity.
Qed.

(** After any number of scans the old RecordList is a prefix of the new
    one. *)
Lemma scans_extend_record_list (payloads : list string) (st : State) :
  exists added,
    scannedData (fold_left (fun s d => submitScan d s) payloads st)
    = scannedData st ++ added.
Proof.
  revert st. induction payloads as [| d ds IH]; intros st; simpl.
  - exists []. now rewrite app_nil_r.
  - destruct (IH (submitScan d st)) as [added Ha]. rewrite Ha.
    destruct (submitScan_scannedData st d) as [-> | [r ->]].
    + now exists added.
    + exists (r :: added). now rewrite <- app_assoc.
Qed.

(** C9.  A scan either leaves RecordList as it is or appends exactly one
    Record at its end; every Record already there stays at its index,
    unchanged, so the order of RecordList is the order in which the pairs
    were completed. *)
Theorem submitScan_only_appends (st : State) (data : string) :
  (scannedData (submitScan data st) = scannedData st
   \/ exists r, scannedData (submitScan data st) = scannedData st ++ [r])
  /\ (forall i r,
        nth_error (scannedData st) i = Some r ->
        nth_error (scannedData (submitScan data st)) i = Some r).
Proof.
  split; [apply submitScan_scannedData |].
  intros i r Hi.
  destruct (submitScan_scannedData st data) as [-> | [r' ->]]; [assumption |].
  rewrite nth_error_app1; [assumption |].
  apply nth_error_Some. rewrite Hi. discriminate.
Qed.

(** ** The clear button *)

(** C1, as amended.  When [AsyncStorage.clear()] resolves, [clearStorage]
    asks the storage to erase everything, empties RecordList and shows
    the "cleared" notice, but it leaves the pending participant as it
    was: the matcher is Idle afterwards exactly when it was Idle before.
    When the storage call is rejected the state is untouched and no
    notice is shown. *)
Theorem reset_empties_record_list (st : State) :
  scannedData (reset fulfilled st) = []
  /\ currentParticipant (reset fulfilled st) = currentParticipant st
  /\ (Idle (reset fulfilled st) <-> Idle st)
  /\ notices (clearStorage fulfilled) = [ StorageCleared ]
  /\ map kind_of (notices (clearStorage fulfilled)) = [ Cleared ]
  /\ In AsyncStorage_clear (clearStorage fulfilled)
  /\ reset rejected st = st
  /\ notices (clearStorage rejected) = [].
Proof.
  unfold reset, Idle. simpl. repeat split; auto.
Qed.

(** C1, as stated, fails: after the participant "G10k042" has been
    scanned, a successful reset does not bring the matcher back to Idle;
    "G10k042" is still pending. *)
Lemma reset_keeps_pending_participant :
  let st := submitScan "G10k042" initialState in
  AwaitingFinish (reset fulfilled st) "G10k042"
  /\ ~ (scannedData (reset fulfilled st) = []
        /\ Idle (reset fulfilled st)
        /\ notices (clearStorage fulfilled) = [ StorageCleared ]).
Proof.
  split; [reflexivity |].
  intros (_ & H & _). vm_compute in H. discriminate H.
Qed.

(** ** Invariants of the reachable states *)

Lemma pairwise_nil {A : Type} (R : A -> A -> Prop) : pairwise R [].
Proof. intros i j x y _ Hi. destruct i; discriminate Hi. Qed.

Lemma pairwise_snoc {A : Type} (R : A -> A -> Prop) (l : list A) (y : A) :
  pairwise R l -> (forall x, In x l -> R x y) -> pairwise R (l ++ [y]).
Proof.
  intros Hl Hy i j a b Hij Ha Hb.
  assert (Hj : (j < List.length (l ++ [y]))%nat)
    by (apply nth_error_Some; rewrite Hb; discriminate).
  rewrite length_app in Hj; simpl in Hj.
  assert (Hi : (i < List.length l)%nat) by lia.
  rewrite nth_error_app1 in Ha by assumption.
  destruct (Nat.eq_dec j (List.length l)) as [-> | Hne].
  - rewrite nth_error_app2, Nat.sub_diag in Hb by lia. simpl in Hb.
    injection Hb as <-. apply Hy. eapply nth_error_In; eassumption.
  - rewrite nth_error_app1 in Hb by lia. apply (Hl i j a b); assumption.
Qed.

Lemma pairwise_sym {A : Type} (R : A -> A -> Prop) (l : list A) :
  (forall x y, R x y -> R y x) ->
  pairwise R l ->
  forall i j x y,
    i <> j -> nth_error l i = Some x -> nth_error l j = Some y -> R x y.
Proof.
  intros Hsym Hl i j x y Hij Hx Hy.
  destruct (Nat.lt_ge_cases i j) as [Hlt | Hge].
  - apply (Hl i j x y); assumption.
  - apply Hsym. apply (Hl j i y x); try assumption. lia.
Qed.

Lemma well_formed_initial : well_formed initialState.
Proof.
  split; simpl; try apply pairwise_nil;
    try (intros p Hp; discriminate Hp); intros r [].
Qed.

Lemma well_formed_submitScan (st : State) (data : string) :
  well_formed st -> well_formed (submitScan data st).
Proof.
  intros [Hpa Hpo Hfr Hpp Hpre Hnan]. unfold submitScan.
  destruct (handleBarcodeScanned_cases st data)
    as [H | [H | [(Hi & Hs & Hin & H) | [H | [H | (pending & Hp & Hn & Hs & H)]]]]];
    rewrite H; simpl; try (split; assumption).
  - (* a new participant becomes pending *)
    split; simpl; try assumption.
    + intros p Hp. injection Hp as <-. exact Hin.
    + intros p Hp. injection Hp as <-. exact Hs.
  - (* the pending participant is paired with a fresh position *)
    apply truthy_Some in Hp. destruct Hp as [Hp _].
    split; simpl; try (intros p Hq; discriminate Hq).
    + apply pairwise_snoc; [assumption |].
      intros r Hr Heq. apply (Hfr pending Hp). simpl in Heq. rewrite <- Heq.
      now apply in_map.
    + apply pairwise_snoc; [assumption |].
      intros r Hr. simpl.
      exact (proj1 (some_false_iff _ _) Hs r Hr).
    + intros r Hr. apply in_app_or in Hr. destruct Hr as [Hr | [<- | []]]; simpl; auto.
    + intros r Hr. apply in_app_or in Hr. destruct Hr as [Hr | [<- | []]]; auto.
Qed.

Lemma well_formed_reset (st : State) (r : settled) :
  well_formed st -> well_formed (reset r st).
Proof.
  intros [Hpa Hpo Hfr Hpp Hpre Hnan]. destruct r; unfold reset; simpl.
  - split; simpl; try apply pairwise_nil; try assumption;
      try (intros p _ []); intros r [].
  - split; assumption.
Qed.

Lemma well_formed_dismissBanner (st : State) :
  well_formed st -> well_formed (dismissBanner st).
Proof. intros [Hpa Hpo Hfr Hpp Hpre Hnan]. split; assumption. Qed.

Lemma reachable_well_formed (st : State) : reachable st -> well_formed st.
Proof.
  induction 1;
    auto using well_formed_initial, well_formed_submitScan,
               well_formed_reset, well_formed_dismissBanner.
Qed.



(** ** Rounding an integer to a Number *)

Lemma digits2_pos_iter_xO (m k : positive) :
  digits2_pos (Pos.iter xO m k) = (digits2_pos m + k)%positive.
Proof.
  induction k as [| k IH] using Pos.peano_ind.
  - simpl. now rewrite Pos.add_1_r.
  - rewrite Pos.iter_succ. simpl. rewrite IH. lia.
Qed.

Lemma Zpos_iter_xO (m k : positive) :
  Z.pos (Pos.iter xO m k) = Z.pos m * 2 ^ Z.pos k.
Proof.
  induction k as [| k IH] using Pos.peano_ind.
  - simpl. lia.
  - rewrite Pos.iter_succ, Pos2Z.inj_succ, Z.pow_succ_r by lia.
    rewrite Pos2Z.inj_xO, IH. ring.
Qed.

Lemma fexp_digits (d : positive) : fexp 53 1024 (Z.pos d) = Z.pos d - 53.
Proof. unfold fexp, emin. lia. Qed.

(** A mantissa of exactly 53 bits is not shifted. *)
Lemma shr_fexp_canonical (m : positive) (e : Z) :
  Z.pos (digits2_pos m) = 53 -> -1074 <= e ->
  shr_fexp 53 1024 (Z.pos m) e loc_Exact =
    ({| shr_m := Z.pos m; shr_r := false; shr_s := false |}, e).
Proof.
  intros Hd He.
  assert (Hf : fexp 53 1024 (Z.pos (digits2_pos m) + e) - e = 0)
    by (unfold fexp, emin; lia).
  unfold shr_fexp. cbn [Zdigits2]. rewrite Hf. reflexivity.
Qed.

Lemma binary_round_aux_canonical (s : bool) (m : positive) (e : Z) :
  Z.pos (digits2_pos m) = 53 -> -1074 <= e <= 971 ->
  binary_round_aux 53 1024 s (Z.pos m) e loc_Exact = S754_finite s m e.
Proof.
  intros Hd He. unfold binary_round_aux.
  rewrite shr_fexp_canonical by lia.
  cbn [shr_m loc_of_shr_record round_nearest_even shr_r shr_s].
  rewrite shr_fexp_canonical by lia.
  cbn [shr_m].
  destruct (e <=? 1024 - 53) eqn:Hle; [reflexivity | lia].
Qed.

(** An integer of fewer than 53 bits is represented exactly: its bits
    are moved to the top of the mantissa. *)
Lemma binary_round_small (s : bool) (m : positive) :
  Z.pos (digits2_pos m) < 53 ->
  binary_round 53 1024 s m 0 =
    S754_finite s (Pos.iter xO m (Z.to_pos (53 - Z.pos (digits2_pos m))))
                (Z.pos (digits2_pos m) - 53).
Proof.
  intros Hd. unfold binary_round, shl_align.
  rewrite Z.add_0_r, fexp_digits, Z.sub_0_r.
  destruct (Z.pos (digits2_pos m) - 53) as [| p | p] eqn:Hp; try lia.
  replace (Z.to_pos (53 - Z.pos (digits2_pos m))) with p by lia.
  apply binary_round_aux_canonical.
  - rewrite digits2_pos_iter_xO. lia.
  - lia.
Qed.

Lemma shr_1_nonneg (mrs : shr_record) :
  0 <= shr_m mrs -> 0 <= shr_m (shr_1 mrs).
Proof.
  destruct mrs as [[| [p | p |] | [p | p |]] r s]; simpl; lia.
Qed.

Lemma iter_shr_1_nonneg (p : positive) (mrs : shr_record) :
  0 <= shr_m mrs -> 0 <= shr_m (iter_pos shr_1 p mrs).
Proof.
  revert mrs. induction p as [p IH | p IH |]; intros mrs H; simpl;
    auto using shr_1_nonneg.
Qed.

Lemma shr_nonneg (mrs : shr_record) (e n : Z) :
  0 <= shr_m mrs ->
  0 <= shr_m (fst (shr mrs e n)) /\ e <= snd (shr mrs e n).
Proof.
  intros H. destruct n as [| p | p]; simpl; try (split; [assumption | lia]).
  split; [now apply iter_shr_1_nonneg | lia].
Qed.

Lemma shr_fexp_nonneg (m e : Z) (l : location) :
  0 <= m ->
  0 <= shr_m (fst (shr_fexp 53 1024 m e l)) /\ e <= snd (shr_fexp 53 1024 m e l).
Proof.
  intros H. unfold shr_fexp. apply shr_nonneg. now destruct l as [| []].
Qed.

Lemma round_nearest_even_nonneg (m : Z) (l : location) :
  0 <= m -> 0 <= round_nearest_even m l.
Proof.
  intros H. destruct l as [| []]; simpl; try assumption; try lia.
  destruct (Z.even m); lia.
Qed.

(** Rounding a non-negative mantissa never gives NaN, keeps the sign and
    never lowers the exponent. *)
Lemma binary_round_aux_sound (s : bool) (m e : Z) (l : location) :
  0 <= m ->
  match binary_round_aux 53 1024 s m e l with
  | S754_nan => False
  | S754_zero s' | S754_infinity s' => s' = s
  | S754_finite s' _ e' => s' = s /\ e <= e'
  end.
Proof.
  intros H. unfold binary_round_aux.
  destruct (shr_fexp_nonneg m e l H) as [H1 H2].
  destruct (shr_fexp 53 1024 m e l) as [mrs' e']. simpl in H1, H2.
  pose proof (round_nearest_even_nonneg _ (loc_of_shr_record mrs') H1) as H3.
  destruct (shr_fexp_nonneg _ e' loc_Exact H3) as [H4 H5].
  destruct (shr_fexp 53 1024 _ e' loc_Exact) as [mrs'' e'']. simpl in H4, H5.
  destruct (shr_m mrs'') as [| p | p]; try reflexivity; try lia.
  destruct (e'' <=? 1024 - 53); [split; [reflexivity | lia] | reflexivity].
Qed.

Lemma binary_round_integral (s : bool) (m : positive) :
  match binary_round 53 1024 s m 0 with
  | S754_nan => False
  | S754_zero s' | S754_infinity s' => s' = s
  | S754_finite s' m' e' => s' = s /\ (0 <= e' \/ Z.pos m' mod 2 ^ (- e') = 0)
  end.
Proof.
  destruct (Z.lt_ge_cases (Z.pos (digits2_pos m)) 53) as [Hd | Hd].
  - rewrite binary_round_small by assumption. split; [reflexivity | right].
    rewrite Zpos_iter_xO.
    replace (- (Z.pos (digits2_pos m) - 53))
      with (Z.pos (Z.to_pos (53 - Z.pos (digits2_pos m)))) by lia.
    apply Z.mod_mul. lia.
  - pose proof (binary_round_aux_sound s (Z.pos m) 0 loc_Exact) as H.
    unfold binary_round, shl_align.
    rewrite Z.add_0_r, fexp_digits, Z.sub_0_r.
    destruct (Z.pos (digits2_pos m) - 53) as [| p | p] eqn:Hp; try lia;
      destruct (binary_round_aux 53 1024 s (Z.pos m) 0 loc_Exact);
      auto; try (apply H; lia);
      (destruct H as [H1 H2]; [lia | auto]).
Qed.

(** The Number for an integer is never NaN: it is an integer-valued
    Number or an infinity, with the sign of the integer. *)
Lemma toNumber_integral (z : Z) :
  JS.isInteger (JS.toNumber z) = true
  \/ JS.toNumber z = S754_infinity (z <? 0).
Proof.
  unfold JS.toNumber, JS.prec, JS.emax, binary_normalize.
  destruct z as [| m | m]; [left; reflexivity | |].
  - pose proof (binary_round_integral false m) as H.
    destruct (binary_round 53 1024 false m 0) as [s | s | | s m' e'].
    + now left.
    + right. now subst s.
    + contradiction.
    + left. destruct H as [_ [H | H]]; simpl; apply orb_true_iff.
      * left. now apply Z.leb_le.
      * right. now apply Z.eqb_eq.
  - pose proof (binary_round_integral true m) as H.
    destruct (binary_round 53 1024 true m 0) as [s | s | | s m' e'].
    + now left.
    + right. now subst s.
    + contradiction.
    + left. destruct H as [_ [H | H]]; simpl; apply orb_true_iff.
      * left. now apply Z.leb_le.
      * right. now apply Z.eqb_eq.
Qed.

Lemma toNumber_not_NaN (z : Z) : JS.isNaN (JS.toNumber z) = false.
Proof.
  destruct (toNumber_integral z) as [H | ->]; [| reflexivity].
  destruct (JS.toNumber z); try reflexivity. discriminate H.
Qed.

Lemma signedNumber_not_NaN (sg : sign) (n : Z) :
  JS.isNaN (signedNumber sg n) = false.
Proof.
  unfold signedNumber. destruct (n =? 0).
  - now destruct (is_minus sg).
  - apply toNumber_not_NaN.
Qed.

Lemma signedNumber_integral (sg : sign) (n : Z) :
  JS.isInteger (signedNumber sg n) = true
  \/ exists s, signedNumber sg n = S754_infinity s.
Proof.
  unfold signedNumber. destruct (n =? 0).
  - left. now destruct (is_minus sg).
  - destruct (toNumber_integral (if is_minus sg then - n else n)) as [H | H];
      [now left | right; eauto].
Qed.

(** ** What [parseInt] accepts *)

Lemma parseInt_unfold (s : string) :
  JS.parseInt s =
    match JS.radixDigits (JS.stripSign (JS.trimStart s)) with
    | [] => JS.NaN
    | ds => signedNumber
              (if JS.hasMinusSign (JS.trimStart s) then MinusSign else NoSign)
              (JS.mathInt ds)
    end.
Proof.
  unfold JS.parseInt, signedNumber.
  destruct (JS.radixDigits _); [reflexivity |].
  now destruct (JS.hasMinusSign _).
Qed.

(** [parseInt] fails exactly when no digit follows the white space and
    the sign. *)
Lemma parseInt_NaN_iff (s : string) :
  JS.isNaN (JS.parseInt s) = true
  <-> JS.radixDigits (JS.stripSign (JS.trimStart s)) = [].
Proof.
  rewrite parseInt_unfold.
  destruct (JS.radixDigits _) as [| c ds]; [now split |].
  rewrite signedNumber_not_NaN. split; discriminate.
Qed.

Lemma parseInt_integral (s : string) :
  JS.isNaN (JS.parseInt s) = true
  \/ JS.isInteger (JS.parseInt s) = true
  \/ exists b, JS.parseInt s = S754_infinity b.
Proof.
  rewrite parseInt_unfold.
  destruct (JS.radixDigits _) as [| c ds]; [now left | right].
  apply signedNumber_integral.
Qed.

Lemma trimStart_app (ws s : string) :
  allChars JS.isStrWhiteSpaceChar ws = true ->
  JS.trimStart (ws ++ s)%string = JS.trimStart s.
Proof.
  unfold allChars. induction ws as [| c ws IH]; simpl; [reflexivity |].
  intros H. apply andb_prop in H. destruct H as [-> H]. now apply IH.
Qed.


(** A digit is neither white space nor a sign. *)
Lemma digit_first (c : ascii) (s : string) :
  JS.isDigit c = true ->
  JS.trimStart (String c s) = String c s
  /\ JS.hasMinusSign (String c s) = false
  /\ JS.stripSign (String c s) = String c s.
Proof.
  destruct c as [[] [] [] [] [] [] [] []]; intros H; cbv in H;
    try discriminate H; repeat split.
Qed.



(** Two finish tokens that are not plain numerals. *)
Example parseInt_17abc : JS.parseInt "17abc" = JS.toNumber 17.
Proof. reflexivity. Qed.

Example parseInt_minus_5 : JS.parseInt "-5" = JS.toNumber (-5).
Proof. reflexivity. Qed.


(** ** The position of a Record *)

Lemma app_singleton_neq {A : Type} (l : list A) (x : A) : l <> l ++ [x].
Proof.
  intros H. apply (f_equal (@List.length A)) in H.
  rewrite length_app in H. simpl in H. lia.
Qed.

(** C2, as amended.  A Record that a scan appends pairs the pending
    participant with [parseInt(payload, 10)]; that position is never NaN,
    so the payload was accepted as a finish token only because
    [parseInt] could read it, and it is an integer-valued Number or an
    infinity.  It need not be non-negative. *)
Theorem appended_position_is_parsed (st : State) (data : string) (r : ScannedData) :
  scannedData (submitScan data st) = scannedData st ++ [r] ->
  exists pending,
    AwaitingFinish st pending
    /\ participant r = pending
    /\ position r = JS.parseInt data
    /\ JS.isNaN (JS.parseInt data) = false
    /\ (JS.isInteger (position r) = true \/ exists b, position r = S754_infinity b).
Proof.
  unfold submitScan.
  destruct (handleBarcodeScanned_cases st data)
    as [H | [H | [(_ & _ & _ & H) | [H | [H | (pending & Hp & Hn & Hs & H)]]]]];
    rewrite H; simpl; intros Heq;
    try (exfalso; exact (app_singleton_neq _ _ Heq)).
  apply app_inv_head in Heq. injection Heq as <-.
  exists pending. simpl. repeat split; try assumption.
  destruct (parseInt_integral data) as [Hnan | Hint]; [congruence | exact Hint].
Qed.

Lemma appended_position_is_parsed_witness :
  let st := submitScan "G10k042" initialState in
  let r := {| participant := "G10k042"; position := JS.toNumber 17 |} in
  scannedData (submitScan "17" st) = scannedData st ++ [r]
  /\ exists pending,
       AwaitingFinish st pending
       /\ participant r = pending
       /\ position r = JS.parseInt "17"
       /\ JS.isNaN (JS.parseInt "17") = false
       /\ (JS.isInteger (position r) = true \/ exists b, position r = S754_infinity b).
Proof.
  intros st r.
  assert (H : scannedData (submitScan "17" st) = scannedData st ++ [r]) by reflexivity.
  split; [exact H |].
  exact (appended_position_is_parsed st "17" r H).
Defined.

(** C2, as stated, fails: with "G10k042" pending, the payload "-5" is
    accepted and the Record appended has the negative position -5.
    Likewise "17abc", which is not a string of digits, is accepted and
    recorded with position 17. *)
Lemma negative_position_recorded :
  let st := submitScan "G10k042" initialState in
  let r := {| participant := "G10k042"; position := JS.toNumber (-5) |} in
  scannedData (submitScan "-5" st) = scannedData st ++ [r]
  /\ JS.isNonNegative (position r) = false
  /\ ~ (JS.isInteger (position r) = true /\ JS.isNonNegative (position r) = true)
  /\ scannedData (submitScan "17abc" st)
     = scannedData st ++ [ {| participant := "G10k042"; position := JS.toNumber 17 |} ]
  /\ allChars JS.isDigit "17abc" = false.
Proof.
  repeat split. intros [_ H]. vm_compute in H. discriminate H.
Qed.

(** ** Instances of the claims about a single scan *)

(** With a Record at position 17 and "G10k007" pending, scanning "17"
    again changes nothing. *)
Lemma duplicate_position_is_silent_noop_witness :
  let st := submitScan "G10k007" (submitScan "17" (submitScan "G10k042" initialState)) in
  AwaitingFinish st "G10k007"
  /\ JS.isNaN (JS.parseInt "17") = false
  /\ handleBarcodeScanned st "17" = []
  /\ submitScan "17" st = st.
Proof.
  intros st.
  assert (Hp : AwaitingFinish st "G10k007") by reflexivity.
  assert (Hn : JS.isNaN (JS.parseInt "17") = false) by reflexivity.
  destruct (duplicate_position_is_silent_noop st "G10k007" "17" Hp Hn)
    as (H1 & H2 & _); [reflexivity |].
  repeat split; assumption.
Defined.

(** The example of the specification: "G10k042", then "17". *)
Lemma fresh_position_records_pair_witness :
  let st := submitScan "G10k042" initialState in
  AwaitingFinish st "G10k042"
  /\ scannedData (submitScan "17" st) =
       [ {| participant := "G10k042"; position := JS.toNumber 17 |} ]
  /\ Idle (submitScan "17" st).
Proof.
  intros st.
  assert (Hp : AwaitingFinish st "G10k042") by reflexivity.
  destruct (fresh_position_records_pair st "G10k042" "17" Hp)
    as (H1 & _ & H3 & _); try reflexivity.
  repeat split; assumption.
Defined.


(** The example of the specification: "G10k042", "17", then "G10k042"
    again. *)
Lemma rescanned_participant_rejected_witness :
  let st := submitScan "17" (submitScan "G10k042" initialState) in
  Idle st
  /\ In "G10k042" (map participant (scannedData st))
  /\ scannedData (submitScan "G10k042" st) = scannedData st
  /\ Idle (submitScan "G10k042" st)
  /\ notices (handleBarcodeScanned st "G10k042") = [ ParticipantAlreadyScanned "G10k042" ].
Proof.
  intros st.
  assert (Hi : Idle st) by reflexivity.
  assert (Hin : In "G10k042" (map participant (scannedData st))) by (left; reflexivity).
  destruct (rescanned_participant_rejected st "G10k042" Hi) as (H1 & _ & H3 & H4 & _);
    [reflexivity | exact Hin |].
  repeat split; assumption.
Defined.

(** The example of the specification, step by step: "G10k042" is
    accepted, "17" completes the pair, "G10k042" again is a duplicate,
    and "18", read as a participant, lacks the prefix. *)
Example specification_trace :
  let s1 := submitScan "G10k042" initialState in
  let s2 := submitScan "17" s1 in
  let s3 := submitScan "G10k042" s2 in
  let s4 := submitScan "18" s3 in
  AwaitingFinish s1 "G10k042"
  /\ scannedData s2 = [ {| participant := "G10k042"; position := JS.toNumber 17 |} ]
  /\ Idle s2
  /\ bannerMessage s3 = Some (ParticipantAlreadyScanned "G10k042")
  /\ scannedData s3 = scannedData s2
  /\ bannerMessage s4 = Some InvalidQRCode
  /\ scannedData s4 = scannedData s2
  /\ Idle s4.
Proof. repeat split. Qed.

(** ** Persistence: what is written is read back *)

Import JSON.

(** The text written for one Record, and a few texts read. *)
Example stringify_one_record :
  stringify [ {| participant := "G10k042"; position := JS.toNumber 17 |} ]
  = Ok ("[{" ++ QuoteJSONString "participant" ++ ":" ++ QuoteJSONString "G10k042"
        ++ "," ++ QuoteJSONString "position" ++ ":17}]")%string.
Proof. reflexivity. Qed.

Example parse_numbers :
  parse "[17, -5, -0, 1e2, 0.1, 1e400]"
  = Ok (Array [ Number (JS.toNumber 17); Number (JS.toNumber (-5)); Number JS.negZero;
                Number (JS.toNumber 100);
                Number (S754_finite false 7205759403792794 (-56));
                Number JS.Infinity ]).
Proof. vm_compute. reflexivity. Qed.

Example parse_rejects :
  parse "[17,]" = SyntaxError /\ parse "017" = SyntaxError /\ parse "" = SyntaxError.
Proof. repeat split. Qed.

Lemma append_assoc (a b c : string) : ((a ++ b) ++ c = a ++ (b ++ c))%string.
Proof. induction a as [| x a IH]; simpl; [reflexivity | now rewrite IH]. Qed.

Lemma append_nil_r (a : string) : (a ++ "")%string = a.
Proof. induction a as [| x a IH]; simpl; [reflexivity | now rewrite IH]. Qed.

Lemma list_ascii_of_string_app (a b : string) :
  list_ascii_of_string (a ++ b) = list_ascii_of_string a ++ list_ascii_of_string b.
Proof. induction a as [| x a IH]; simpl; [reflexivity | now rewrite IH]. Qed.

Lemma mathInt_app (l1 l2 : list ascii) :
  JS.mathInt (l1 ++ l2) = fold_left (fun acc c => 10 * acc + JS.digitValue c) l2 (JS.mathInt l1).
Proof. unfold JS.mathInt. now rewrite fold_left_app. Qed.

Lemma digitChar_spec (d : Z) :
  0 <= d < 10 -> JS.isDigit (digitChar d) = true /\ JS.digitValue (digitChar d) = d.
Proof.
  intros H.
  assert (Hd : d = 0 \/ d = 1 \/ d = 2 \/ d = 3 \/ d = 4 \/ d = 5 \/ d = 6 \/ d = 7 \/ d = 8 \/ d = 9) by lia.
  repeat (destruct Hd as [-> | Hd]; [split; reflexivity |]). subst d. split; reflexivity.
Qed.

(** The digits that [decimalDigits] puts in front of [acc]. *)
Lemma decimalDigits_spec (fuel : nat) :
  forall n acc, 0 <= n < 10 ^ Z.of_nat fuel -> (0 < fuel)%nat ->
  exists pre,
    decimalDigits fuel n acc = (pre ++ acc)%string
    /\ pre <> ""
    /\ allChars JS.isDigit pre = true
    /\ JS.mathInt (list_ascii_of_string pre) = n
    /\ (forall s, pre = String "0" s -> n = 0 /\ s = "").
Proof.
  induction fuel as [| fuel IH]; intros n acc Hn Hf; [lia |].
  simpl decimalDigits.
  destruct (digitChar_spec (n mod 10)) as [Hd1 Hd2];
    [apply Z.mod_pos_bound; lia |].
  destruct (n <? 10) eqn:Hlt.
  - apply Z.ltb_lt in Hlt. exists (String (digitChar (n mod 10)) "").
    rewrite Z.mod_small in * by lia.
    repeat split.
    + discriminate.
    + unfold allChars. simpl. now rewrite Hd1.
    + unfold JS.mathInt. simpl. rewrite Hd2. lia.
    + injection H as H. rewrite <- Hd2, H. reflexivity.
    + now injection H.
  - apply Z.ltb_ge in Hlt.
    assert (Hfuel : (0 < fuel)%nat).
    { destruct fuel; [change (10 ^ Z.of_nat 1) with 10 in Hn; lia | lia]. }
    destruct (IH (n / 10) (String (digitChar (n mod 10)) acc)) as (pre & Hpre & Hne & Hall & Hval & Hzero).
    + split; [apply Z.div_pos; lia |].
      apply Z.div_lt_upper_bound; [lia |].
      rewrite Nat2Z.inj_succ, Z.pow_succ_r in Hn by lia. lia.
    + assumption.
    + exists (pre ++ String (digitChar (n mod 10)) "")%string.
      rewrite Hpre, append_assoc. simpl. repeat split.
      * destruct pre; [contradiction | discriminate].
      * unfold allChars in *. rewrite list_ascii_of_string_app, forallb_app, Hall.
        simpl. now rewrite Hd1.
      * rewrite list_ascii_of_string_app, mathInt_app, Hval.
        cbn [list_ascii_of_string fold_left]. rewrite Hd2.
        pose proof (Z.div_mod n 10). lia.
      * destruct pre as [| c pre]; [contradiction |]. simpl in H. injection H as -> H.
        destruct (Hzero pre eq_refl) as [H0 _].
        assert (1 <= n / 10) by (apply Z.div_le_lower_bound; lia). lia.
      * destruct pre as [| c pre]; [contradiction |]. simpl in H. injection H as -> H.
        destruct (Hzero pre eq_refl) as [H0 _].
        assert (1 <= n / 10) by (apply Z.div_le_lower_bound; lia). lia.
Qed.

Lemma decimal_spec (n : Z) :
  0 <= n ->
  decimal n <> ""
  /\ allChars JS.isDigit (decimal n) = true
  /\ JS.mathInt (list_ascii_of_string (decimal n)) = n
  /\ (forall s, decimal n = String "0" s -> n = 0 /\ s = "").
Proof.
  intros Hn. unfold decimal.
  destruct (decimalDigits_spec (S (Z.to_nat (Z.log2 n))) n "") as (pre & Hpre & H);
    [| lia | rewrite Hpre, append_nil_r; exact H].
  split; [assumption |].
  destruct (Z.eq_dec n 0) as [-> | Hnz]; [simpl; lia |].
  assert (Hlog : n < 2 ^ Z.succ (Z.log2 n)) by (apply Z.log2_spec; lia).
  pose proof (Z.log2_nonneg n) as Hl.
  rewrite Nat2Z.inj_succ, Z2Nat.id by assumption.
  assert (2 ^ Z.succ (Z.log2 n) <= 10 ^ Z.succ (Z.log2 n))
    by (apply Z.pow_le_mono_l; lia).
  lia.
Qed.

(** ** Integers below 2^53 as Numbers and as text *)

Lemma digits2_pos_bounds (m : positive) :
  2 ^ (Z.pos (digits2_pos m) - 1) <= Z.pos m < 2 ^ Z.pos (digits2_pos m).
Proof.
  induction m as [m IH | m IH |]; simpl digits2_pos.
  - rewrite Pos2Z.inj_succ, Z.pow_succ_r by lia.
    replace (Z.succ (Z.pos (digits2_pos m)) - 1)
      with (Z.succ (Z.pos (digits2_pos m) - 1)) by lia.
    rewrite Z.pow_succ_r by lia. lia.
  - rewrite Pos2Z.inj_succ, Z.pow_succ_r by lia.
    replace (Z.succ (Z.pos (digits2_pos m)) - 1)
      with (Z.succ (Z.pos (digits2_pos m) - 1)) by lia.
    rewrite Z.pow_succ_r by lia. lia.
  - simpl. lia.
Qed.

Lemma binary_round_53 (s : bool) (m : positive) :
  Z.pos (digits2_pos m) = 53 ->
  binary_round 53 1024 s m 0 = S754_finite s m 0.
Proof.
  intros Hd. unfold binary_round, shl_align.
  rewrite Z.add_0_r, fexp_digits, Z.sub_0_r, Hd. simpl.
  apply binary_round_aux_canonical; [assumption | lia].
Qed.

(** The Number for a non-zero integer below 2^53 in magnitude has that
    integer as its value. *)
Lemma binary_round_exact (s : bool) (m : positive) :
  Z.pos m < 2 ^ 53 ->
  exists m' e',
    binary_round 53 1024 s m 0 = S754_finite s m' e'
    /\ integerValue (S754_finite s m' e') = Some (if s then - Z.pos m else Z.pos m).
Proof.
  intros Hm. pose proof (digits2_pos_bounds m) as [Hlo _].
  assert (Hd : Z.pos (digits2_pos m) <= 53).
  { destruct (Z.le_gt_cases (Z.pos (digits2_pos m)) 53) as [H | H]; [assumption |].
    assert (2 ^ 53 <= 2 ^ (Z.pos (digits2_pos m) - 1))
      by (apply Z.pow_le_mono_r; lia).
    lia. }
  destruct (Z.eq_dec (Z.pos (digits2_pos m)) 53) as [H53 | Hne].
  - exists m, 0. rewrite binary_round_53 by assumption. split; [reflexivity |].
    unfold integerValue. simpl (0 <=? 0). cbn [option_map].
    rewrite Z.pow_0_r, Z.mul_1_r. reflexivity.
  - rewrite binary_round_small by lia.
    eexists _, _. split; [reflexivity |].
    unfold integerValue.
    destruct (0 <=? Z.pos (digits2_pos m) - 53) eqn:He; [apply Z.leb_le in He; lia |].
    rewrite Zpos_iter_xO.
    replace (- (Z.pos (digits2_pos m) - 53))
      with (Z.pos (Z.to_pos (53 - Z.pos (digits2_pos m)))) by lia.
    rewrite Z.mod_mul, Z.div_mul by lia. reflexivity.
Qed.

Lemma Number_toString_integer (z : Z) :
  Z.abs z < 2 ^ 53 ->
  isFinite (JS.toNumber z) = true
  /\ Number_toString (JS.toNumber z) = Ok (integerText z).
Proof.
  intros Hz. unfold JS.toNumber, JS.prec, JS.emax, binary_normalize, integerText.
  destruct z as [| m | m].
  - split; reflexivity.
  - destruct (binary_round_exact false m Hz) as (m' & e' & -> & Hv).
    split; [reflexivity |].
    unfold Number_toString. rewrite Hv.
    change (Z.abs (Z.pos m)) with (Z.pos m).
    destruct (Z.pos m <? 2 ^ 53) eqn:Hlt; [reflexivity | apply Z.ltb_ge in Hlt; lia].
  - destruct (binary_round_exact true m Hz) as (m' & e' & -> & Hv).
    split; [reflexivity |].
    unfold Number_toString. rewrite Hv.
    change (Z.abs (- Z.pos m)) with (Z.pos m).
    change (Z.abs (Z.neg m)) with (Z.pos m).
    destruct (Z.pos m <? 2 ^ 53) eqn:Hlt; [reflexivity | apply Z.ltb_ge in Hlt; lia].
Qed.

Lemma radixDigits_all (s : string) :
  allChars JS.isDigit s = true ->
  JS.radixDigits s = list_ascii_of_string s /\ dropDigits s = "".
Proof.
  unfold allChars. induction s as [| c s IH]; simpl; [split; reflexivity |].
  intros H. apply andb_prop in H. destruct H as [-> H].
  destruct (IH H) as [-> ->]. split; reflexivity.
Qed.

Lemma superfluousZero_false (s : string) :
  (forall s', s = String "0" s' -> s' = "") ->
  superfluousZero (list_ascii_of_string s) = false.
Proof.
  intros H. destruct s as [| c [| c' s]]; [reflexivity | |];
    destruct c as [[] [] [] [] [] [] [] []]; try reflexivity.
  discriminate (H _ eq_refl).
Qed.

(** Reading back the text of an integer. *)
Lemma numberOfLiteral_integer (z : Z) :
  numberOfLiteral (integerText z) = Ok (JS.toNumber z).
Proof.
  unfold integerText.
  destruct (decimal_spec (Z.abs z)) as (Hne & Hall & Hval & Hzero); [lia |].
  destruct (radixDigits_all _ Hall) as [Hrd Hdd].
  assert (Hsz : superfluousZero (list_ascii_of_string (decimal (Z.abs z))) = false).
  { apply superfluousZero_false. intros s' Hs. now destruct (Hzero s' Hs). }
  assert (Hbody :
    forall negative,
      match JS.radixDigits (decimal (Z.abs z)) with
      | [] => SyntaxError
      | _ =>
          if superfluousZero (JS.radixDigits (decimal (Z.abs z))) then SyntaxError
          else
            ' (frac, s) <- fractionOf (dropDigits (decimal (Z.abs z))) ;;
            ' (exponent, s) <- exponentOf s ;;
            match s with
            | EmptyString =>
                Ok (scaledNumber negative
                      (JS.mathInt (JS.radixDigits (decimal (Z.abs z)) ++ frac))
                      (exponent - Z.of_nat (List.length frac)))
            | _ => SyntaxError
            end
      end = Ok (scaledNumber negative (Z.abs z) 0)).
  { intros negative. rewrite Hrd, Hdd, Hsz. simpl.
    rewrite app_nil_r, Hval.
    destruct (list_ascii_of_string (decimal (Z.abs z))) eqn:Hl; [| reflexivity].
    destruct (decimal (Z.abs z)); [contradiction | discriminate Hl]. }
  destruct (z <? 0) eqn:Hneg.
  - apply Z.ltb_lt in Hneg. unfold numberOfLiteral.
    simpl String.append. cbn [JS.hasMinusSign JS.stripSign].
    rewrite Hbody. unfold scaledNumber.
    destruct (Z.abs z) as [| p | p] eqn:Ha; try lia.
    change (0 <=? 0) with true. cbv iota.
    rewrite ?Z.pow_0_r, ?Z.mul_1_r. f_equal. f_equal. lia.
  - apply Z.ltb_ge in Hneg. unfold numberOfLiteral.
    simpl String.append.
    destruct (decimal (Z.abs z)) as [| c s] eqn:Hd; [contradiction |].
    assert (Hc : JS.isDigit c = true)
      by (unfold allChars in Hall; simpl in Hall; now apply andb_prop in Hall).
    destruct (digit_first c s Hc) as (_ & -> & _).
    rewrite Hbody. unfold scaledNumber.
    destruct (Z.abs z) as [| p | p] eqn:Ha; try lia.
    + replace z with 0 by lia. reflexivity.
    + change (0 <=? 0) with true. cbv iota.
    rewrite ?Z.pow_0_r, ?Z.mul_1_r. f_equal. f_equal. lia.
Qed.

(** ** Scanning the text that [stringify] writes *)

Lemma scan_quoteChar (c : ascii) (read : string) (cfg : config) (text : string) :
  scan (InString read) cfg (quoteChar c ++ text) = scan (InString (snoc read c)) cfg text.
Proof.
  destruct c as [[] [] [] [] [] [] [] []]; reflexivity.
Qed.

Lemma scan_quoteChars (s : string) :
  forall read cfg rest,
    scan (InString read) cfg (quoteChars s ++ String quotation_mark rest)
    = (cfg' <- feed (TString (read ++ s)) cfg ;; scan Between cfg' rest).
Proof.
  induction s as [| c s IH]; intros read cfg rest.
  - rewrite append_nil_r. simpl.
    destruct (feed (TString read) cfg); reflexivity.
  - simpl quoteChars. rewrite append_assoc, scan_quoteChar, IH.
    unfold snoc. rewrite append_assoc. reflexivity.
Qed.

(** A quoted string is read back as the string. *)
Lemma scan_quoted (s : string) (cfg : config) (rest : string) :
  scan Between cfg (QuoteJSONString s ++ rest)
  = (cfg' <- feed (TString s) cfg ;; scan Between cfg' rest).
Proof.
  unfold QuoteJSONString. simpl String.append.
  rewrite append_assoc. simpl String.append.
  change (scan Between cfg (String quotation_mark (quoteChars s ++ String quotation_mark rest)))
    with (scan (InString "") cfg (quoteChars s ++ String quotation_mark rest)).
  now rewrite scan_quoteChars.
Qed.

Lemma digit_isNumberChar (c : ascii) : JS.isDigit c = true -> isNumberChar c = true.
Proof. unfold isNumberChar. now intros ->. Qed.

Lemma between_digit (c : ascii) (cfg : config) :
  JS.isDigit c = true -> between c cfg = Ok (InNumber (String c ""), cfg).
Proof.
  destruct c as [[] [] [] [] [] [] [] []]; intros H; cbv in H;
    try discriminate H; reflexivity.
Qed.

Lemma scan_digits (ds : string) :
  forall read cfg c rest,
    allChars JS.isDigit ds = true ->
    isNumberChar c = false ->
    scan (InNumber read) cfg (ds ++ String c rest)
    = (x <- numberOfLiteral (read ++ ds) ;;
       cfg' <- feed (TNumber x) cfg ;;
       ' (m, cfg'') <- between c cfg' ;;
       scan m cfg'' rest).
Proof.
  unfold allChars. induction ds as [| d ds IH]; intros read cfg c rest Hds Hc.
  - rewrite append_nil_r. simpl. rewrite Hc.
    destruct (numberOfLiteral read) as [x | |]; try reflexivity. simpl.
    destruct (feed (TNumber x) cfg) as [cfg' | |]; reflexivity.
  - simpl in Hds. apply andb_prop in Hds. destruct Hds as [Hd Hds].
    simpl. rewrite (digit_isNumberChar d Hd). simpl.
    rewrite IH by assumption. unfold snoc. rewrite append_assoc. reflexivity.
Qed.

(** The text of an integer, followed by a code unit that cannot
    continue a number, is read back as the Number for the integer. *)
Lemma scan_integer (z : Z) (cfg : config) (c : ascii) (rest : string) :
  isNumberChar c = false ->
  scan Between cfg (integerText z ++ String c rest)
  = (cfg' <- feed (TNumber (JS.toNumber z)) cfg ;;
     ' (m, cfg'') <- between c cfg' ;;
     scan m cfg'' rest).
Proof.
  intros Hc. pose proof (numberOfLiteral_integer z) as Hlit.
  unfold integerText in *.
  destruct (decimal_spec (Z.abs z)) as (Hne & Hall & _); [lia |].
  destruct (z <? 0).
  - simpl String.append in *.
    change (scan Between cfg (String "-" (decimal (Z.abs z) ++ String c rest)))
      with (scan (InNumber "-") cfg (decimal (Z.abs z) ++ String c rest)).
    rewrite scan_digits by assumption. simpl String.append. now rewrite Hlit.
  - simpl String.append in *.
    destruct (decimal (Z.abs z)) as [| d ds]; [contradiction |].
    unfold allChars in Hall. simpl in Hall. apply andb_prop in Hall.
    destruct Hall as [Hd Hall].
    simpl String.append. simpl scan. rewrite (between_digit d cfg Hd). simpl bind.
    rewrite scan_digits by assumption. simpl String.append. now rewrite Hlit.
Qed.

Lemma scan_punctuator (c : ascii) (cfg cfg' : config) (text : string) :
  step Between c cfg = Ok (Between, cfg') ->
  scan Between cfg (String c text) = scan Between cfg' text.
Proof.
  intros H.
  change (scan Between cfg (String c text))
    with (' (m, cfg'') <- step Between c cfg ;; scan m cfg'' text).
  now rewrite H.
Qed.

Lemma serializeScannedData_integer (p : string) (z : Z) :
  Z.abs z < 2 ^ 53 ->
  serializeScannedData {| participant := p; position := JS.toNumber z |}
  = Ok (recordText p z).
Proof.
  intros Hz. destruct (Number_toString_integer z Hz) as [Hfin Htext].
  unfold serializeScannedData, serializeNumber. simpl position. simpl participant.
  rewrite Hfin, Htext. reflexivity.
Qed.

(** Inside an array, the text of a Record is read back as the Record. *)
Lemma scan_record (p : string) (z : Z) (e : expecting)
      (elements : list value) (stack : list frame) (rest : string) :
  e = AValue \/ e = AValueOrClose ->
  scan Between (e, InArray elements :: stack) (recordText p z ++ rest)
  = scan Between
      (ACommaOrClose,
       InArray (ofScannedData {| participant := p; position := JS.toNumber z |}
                  :: elements) :: stack)
      rest.
Proof.
  intros He. unfold recordText.
  repeat rewrite append_assoc. cbn [String.append].
  rewrite (scan_punctuator "{" _ (AKeyOrClose, InObject [] :: InArray elements :: stack))
    by (destruct He as [-> | ->]; reflexivity).
  rewrite scan_quoted. cbn [feed bind].
  rewrite (scan_punctuator ":" _ (AValue, InProperty [] "participant" :: InArray elements :: stack))
    by reflexivity.
  rewrite scan_quoted. cbn [feed complete bind].
  rewrite (scan_punctuator "," _
             (AKey, InObject (addProperty [] "participant" (Str p)) :: InArray elements :: stack))
    by reflexivity.
  rewrite scan_quoted. cbn [feed bind].
  rewrite (scan_punctuator ":" _
             (AValue, InProperty (addProperty [] "participant" (Str p)) "position"
                        :: InArray elements :: stack))
    by reflexivity.
  rewrite scan_integer by reflexivity.
  reflexivity.
Qed.

(** The elements after the first are read back in order, up to the
    closing bracket. *)
Lemma scan_rest (l : list ScannedData) :
  Forall safePosition l ->
  forall elements,
  exists text,
    serializeRest l = Ok text
    /\ scan Between (ACommaOrClose, [InArray elements]) (text ++ "]")
       = Ok (Array (rev elements ++ map ofScannedData l)).
Proof.
  induction 1 as [| r l Hr Hl IH]; intros elements.
  - exists "". split; [reflexivity |]. simpl. now rewrite app_nil_r.
  - destruct r as [p x]. destruct Hr as (z & Hz & Hx). simpl in Hx. subst x.
    destruct (IH (ofScannedData {| participant := p; position := JS.toNumber z |}
                    :: elements)) as (text & Htext & Hscan).
    exists ("," ++ recordText p z ++ text)%string. split.
    + simpl serializeRest. rewrite serializeScannedData_integer by assumption.
      simpl bind. rewrite Htext. reflexivity.
    + cbn [String.append].
      rewrite (scan_punctuator "," _ (AValue, [InArray elements])) by reflexivity.
      rewrite append_assoc, scan_record by (now left).
      rewrite Hscan. simpl rev. rewrite <- app_assoc. reflexivity.
Qed.

Lemma parse_stringify (l : list ScannedData) :
  Forall safePosition l ->
  exists text,
    stringify l = Ok text
    /\ text <> ""
    /\ parse text = Ok (ofRecordList l).
Proof.
  intros Hl. destruct Hl as [| r l Hr Hl].
  - exists "[]". repeat split. discriminate.
  - destruct r as [p x]. destruct Hr as (z & Hz & Hx). simpl in Hx. subst x.
    destruct (scan_rest l Hl
                [ofScannedData {| participant := p; position := JS.toNumber z |}])
      as (text & Htext & Hscan).
    exists ("[" ++ recordText p z ++ text ++ "]")%string. repeat split.
    + simpl stringify. rewrite serializeScannedData_integer by assumption.
      simpl bind. rewrite Htext. reflexivity.
    + discriminate.
    + unfold parse. cbn [String.append].
      rewrite (scan_punctuator "[" _ (AValueOrClose, [InArray []])) by reflexivity.
      rewrite scan_record by (now right).
      exact Hscan.
Qed.





(** ** Further properties of a single scan *)

(** X1.  While Idle, a payload without the prefix "G10k" is rejected:
    RecordList and the pending slot are as before, the matcher stays
    Idle, the "invalid QR code" notice, of kind InvalidFormat, is shown
    and there is no haptic feedback. *)
Theorem unprefixed_participant_rejected (st : State) (data : string) :
  Idle st ->
  JS.startsWith data "G10k" = false ->
  scannedData (submitScan data st) = scannedData st
  /\ currentParticipant (submitScan data st) = currentParticipant st
  /\ Idle (submitScan data st)
  /\ notices (handleBarcodeScanned st data) = [ InvalidQRCode ]
  /\ map kind_of (notices (handleBarcodeScanned st data)) = [ InvalidFormat ]
  /\ ~ In Haptics_notificationAsync_Success (handleBarcodeScanned st data).
Proof.
  intros Hi Hpre. unfold submitScan.
  rewrite (idle_invalid st data Hi Hpre). simpl.
  repeat split; try exact Hi. intros [H | []]. discriminate H.
Qed.

Lemma unprefixed_participant_rejected_witness :
  let st := submitScan "17" (submitScan "G10k042" initialState) in
  Idle st
  /\ JS.startsWith "18" "G10k" = false
  /\ scannedData (submitScan "18" st) = scannedData st
  /\ notices (handleBarcodeScanned st "18") = [ InvalidQRCode ].
Proof.
  intros st.
  assert (Hi : Idle st) by reflexivity.
  destruct (unprefixed_participant_rejected st "18" Hi) as (H1 & _ & _ & H4 & _);
    [reflexivity |].
  repeat split; assumption.
Defined.

(** X2.  While Idle, a payload with the prefix "G10k" that no Record
    holds as participant becomes the pending participant: RecordList is
    unchanged, the matcher is AwaitingFinish with that payload, the
    "participant scanned" notice is shown and the haptic feedback is
    given. *)
Theorem new_participant_becomes_pending (st : State) (data : string) :
  Idle st ->
  JS.startsWith data "G10k" = true ->
  ~ In data (map participant (scannedData st)) ->
  scannedData (submitScan data st) = scannedData st
  /\ currentParticipant (submitScan data st) = Some data
  /\ AwaitingFinish (submitScan data st) data
  /\ notices (handleBarcodeScanned st data) = [ ParticipantScanned data ]
  /\ map kind_of (notices (handleBarcodeScanned st data)) = [ Accepted ]
  /\ In Haptics_notificationAsync_Success (handleBarcodeScanned st data).
Proof.
  intros Hi Hpre Hin. unfold submitScan.
  rewrite (idle_accept st data Hi Hpre Hin). simpl.
  repeat split.
  - unfold AwaitingFinish. simpl. now apply startsWith_nonempty.
  - right. right. now left.
Qed.

Lemma new_participant_becomes_pending_witness :
  let st := submitScan "17" (submitScan "G10k042" initialState) in
  Idle st
  /\ ~ In "G10k007" (map participant (scannedData st))
  /\ AwaitingFinish (submitScan "G10k007" st) "G10k007"
  /\ scannedData (submitScan "G10k007" st) = scannedData st.
Proof.
  intros st.
  assert (Hi : Idle st) by reflexivity.
  assert (Hin : ~ In "G10k007" (map participant (scannedData st))).
  { intros [H | []]. discriminate H. }
  destruct (new_participant_becomes_pending st "G10k007" Hi) as (H1 & _ & H3 & _);
    [reflexivity | exact Hin |].
  repeat split; assumption.
Defined.

(** X3.  The haptic feedback of a scan is given exactly when the scan
    changes the pending participant or RecordList: on an accepted
    participant and on a recorded pair, never on a rejection. *)
Theorem haptic_feedback_iff_progress (st : State) (data : string) :
  In Haptics_notificationAsync_Success (handleBarcodeScanned st data)
  <-> (currentParticipant (submitScan data st) <> currentParticipant st
       \/ scannedData (submitScan data st) <> scannedData st).
Proof.
  unfold submitScan.
  destruct (handleBarcodeScanned_cases st data)
    as [H | [H | [(Hi & Hs & Hin & H) | [H | [H | (pending & Hp & Hn & Hs & H)]]]]];
    rewrite H; simpl.
  - split; [intros [E | []]; discriminate E | intros [E | E]; now elim E].
  - split; [intros [E | []]; discriminate E | intros [E | E]; now elim E].
  - split; [| intros _; right; right; now left].
    intros _. left. intros E. unfold Idle in Hi. rewrite <- E in Hi.
    rewrite (startsWith_nonempty data Hs) in Hi. discriminate Hi.
  - split; [intros [E | []]; discriminate E | intros [E | E]; now elim E].
  - split; [intros [] | intros [E | E]; now elim E].
  - split; [| intros _; right; right; now left].
    intros _. right. intros E. symmetry in E. exact (app_singleton_neq _ _ E).
Qed.

(** X4.  A scan shows at most one banner, and it shows none in one case
    only: the matcher is AwaitingFinish and the payload parses to a
    position that some Record already holds. *)
Theorem scan_is_silent_iff_duplicate_position (st : State) (data : string) :
  (List.length (notices (handleBarcodeScanned st data)) <= 1)%nat
  /\ (notices (handleBarcodeScanned st data) = []
      <-> exists pending,
            AwaitingFinish st pending
            /\ JS.isNaN (JS.parseInt data) = false
            /\ JS.some (fun item => JS.strict_equals (position item) (JS.parseInt data))
                       (scannedData st) = true).
Proof.
  destruct (truthy (currentParticipant st)) as [pending |] eqn:Hp.
  - destruct (JS.isNaN (JS.parseInt data)) eqn:Hn.
    + rewrite (awaiting_invalid st data pending Hp Hn). simpl.
      split; [lia |]. split; [discriminate |].
      intros (q & _ & E & _). discriminate E.
    + destruct (JS.some (fun item => JS.strict_equals (position item) (JS.parseInt data))
                        (scannedData st)) eqn:Hs.
      * rewrite (awaiting_duplicate st data pending Hp Hn Hs). simpl.
        split; [lia |]. split; [| reflexivity].
        intros _. exists pending. repeat split. exact Hp.
      * rewrite (awaiting_record st data pending Hp Hn Hs). simpl.
        split; [lia |]. split; [discriminate |].
        intros (q & _ & _ & E). discriminate E.
  - assert (Hno : ~ exists q, AwaitingFinish st q /\
                    JS.isNaN (JS.parseInt data) = false /\
                    JS.some (fun item => JS.strict_equals (position item) (JS.parseInt data))
                            (scannedData st) = true).
    { intros (q & Hq & _). unfold AwaitingFinish in Hq. congruence. }
    destruct (JS.startsWith data "G10k") eqn:Hpre.
    + destruct (in_dec string_dec data (map participant (scannedData st))) as [Hin | Hin].
      * rewrite (idle_duplicate st data Hp Hpre Hin). simpl.
        split; [lia |]. split; [discriminate | intros H; now elim Hno].
      * rewrite (idle_accept st data Hp Hpre Hin). simpl.
        split; [lia |]. split; [discriminate | intros H; now elim Hno].
    + rewrite (idle_invalid st data Hp Hpre). simpl.
      split; [lia |]. split; [discriminate | intros H; now elim Hno].
Qed.

(** X5.  While AwaitingFinish, a payload is rejected as an invalid finish
    token exactly when no decimal digit follows its leading white space
    and optional sign; the empty payload, white space alone and a bare
    sign are rejected. *)
Theorem finish_token_rejected_iff_no_digit (st : State) (pending data : string) :
  AwaitingFinish st pending ->
  (notices (handleBarcodeScanned st data) = [ InvalidFinishToken ]
   <-> JS.radixDigits (JS.stripSign (JS.trimStart data)) = [])
  /\ (forall ws sg,
        allChars JS.isStrWhiteSpaceChar ws = true ->
        notices (handleBarcodeScanned st (ws ++ sign_text sg)%string)
        = [ InvalidFinishToken ]).
Proof.
  intros Hp.
  assert (Hiff : notices (handleBarcodeScanned st data) = [ InvalidFinishToken ]
                 <-> JS.isNaN (JS.parseInt data) = true).
  { destruct (JS.isNaN (JS.parseInt data)) eqn:Hn.
    - rewrite (awaiting_invalid st data pending Hp Hn). simpl. tauto.
    - split; [| discriminate].
      destruct (JS.some (fun item => JS.strict_equals (position item) (JS.parseInt data))
                        (scannedData st)) eqn:Hs.
      + rewrite (awaiting_duplicate st data pending Hp Hn Hs). discriminate.
      + rewrite (awaiting_record st data pending Hp Hn Hs). discriminate. }
  split.
  - rewrite Hiff. apply parseInt_NaN_iff.
  - intros ws sg Hws.
    assert (Hn : JS.isNaN (JS.parseInt (ws ++ sign_text sg)%string) = true).
    { apply parseInt_NaN_iff. rewrite trimStart_app by assumption.
      now destruct sg. }
    now rewrite (awaiting_invalid st _ pending Hp Hn).
Qed.

Lemma finish_token_rejected_iff_no_digit_witness :
  let st := submitScan "G10k042" initialState in
  AwaitingFinish st "G10k042"
  /\ notices (handleBarcodeScanned st "  -") = [ InvalidFinishToken ].
Proof.
  intros st.
  assert (Hp : AwaitingFinish st "G10k042") by reflexivity.
  destruct (finish_token_rejected_iff_no_digit st "G10k042" "" Hp) as [_ H].
  split; [exact Hp |]. apply (H "  " MinusSign). reflexivity.
Defined.

(** ** Sequences of events *)

Lemma awaiting_scan_cases (st : State) (pending data : string) :
  AwaitingFinish st pending ->
  (AwaitingFinish (submitScan data st) pending
   /\ scannedData (submitScan data st) = scannedData st)
  \/ scannedData (submitScan data st)
     = scannedData st ++ [ {| participant := pending; position := JS.parseInt data |} ].
Proof.
  intros Hp. unfold submitScan.
  destruct (JS.isNaN (JS.parseInt data)) eqn:Hn.
  - left. rewrite (awaiting_invalid st data pending Hp Hn). simpl. now split.
  - destruct (JS.some (fun item => JS.strict_equals (position item) (JS.parseInt data))
                      (scannedData st)) eqn:Hs.
    + left. rewrite (awaiting_duplicate st data pending Hp Hn Hs). simpl. now split.
    + right. now rewrite (awaiting_record st data pending Hp Hn Hs).
Qed.

(** X6.  A pending participant is never dropped or replaced by scans:
    after any number of scans either the matcher is still AwaitingFinish
    with that participant and RecordList is as it was, or the first
    Record that has been appended is theirs. *)
Theorem pending_participant_is_next_record (payloads : list string) :
  forall (st : State) (pending : string),
    AwaitingFinish st pending ->
    let st' := fold_left (fun s d => submitScan d s) payloads st in
    (AwaitingFinish st' pending /\ scannedData st' = scannedData st)
    \/ exists position' rest,
         scannedData st'
         = scannedData st
           ++ {| participant := pending; position := position' |} :: rest.
Proof.
  induction payloads as [| d ds IH]; intros st pending Hp; simpl.
  - left. now split.
  - destruct (awaiting_scan_cases st pending d Hp) as [[Hp' Hs] | Hs].
    + destruct (IH (submitScan d st) pending Hp') as [[Hq Hl] | (x & rest & Hl)].
      * left. split; [exact Hq | now rewrite Hl].
      * right. exists x, rest. now rewrite Hl, Hs.
    + right.
      destruct (scans_extend_record_list ds (submitScan d st)) as [added Ha].
      exists (JS.parseInt d), added. rewrite Ha, Hs, <- app_assoc. reflexivity.
Qed.

Lemma pending_participant_is_next_record_witness :
  let st := submitScan "G10k042" initialState in
  AwaitingFinish st "G10k042"
  /\ ((AwaitingFinish (fold_left (fun s d => submitScan d s)
                                 ["abc"; "G10k007"; "17"; "G10k007"; "18"] st) "G10k042"
       /\ scannedData (fold_left (fun s d => submitScan d s)
                                 ["abc"; "G10k007"; "17"; "G10k007"; "18"] st)
          = scannedData st)
      \/ exists position' rest,
           scannedData (fold_left (fun s d => submitScan d s)
                                  ["abc"; "G10k007"; "17"; "G10k007"; "18"] st)
           = scannedData st
             ++ {| participant := "G10k042"; position := position' |} :: rest).
Proof.
  intros st.
  assert (Hp : AwaitingFinish st "G10k042") by reflexivity.
  split; [exact Hp |].
  exact (pending_participant_is_next_record
           ["abc"; "G10k007"; "17"; "G10k007"; "18"] st "G10k042" Hp).
Defined.




(** X8.  A successful reset followed by a scan.  The participant that
    was pending before the reset is still paired: any payload that
    parses is recorded for them, as the only Record of the emptied list,
    even if that position or participant was recorded before the reset.
    And while Idle, any payload with the prefix is accepted after the
    reset, whether or not it was recorded before. *)
Theorem scan_after_reset (st : State) (data : string) :
  (forall pending,
      AwaitingFinish st pending ->
      JS.isNaN (JS.parseInt data) = false ->
      scannedData (submitScan data (reset fulfilled st))
      = [ {| participant := pending; position := JS.parseInt data |} ]
      /\ Idle (submitScan data (reset fulfilled st)))
  /\ (Idle st ->
      JS.startsWith data "G10k" = true ->
      AwaitingFinish (submitScan data (reset fulfilled st)) data
      /\ scannedData (submitScan data (reset fulfilled st)) = []).
Proof.
  split.
  - intros pending Hp Hn.
    assert (Hp' : AwaitingFinish (reset fulfilled st) pending) by exact Hp.
    unfold submitScan.
    rewrite (awaiting_record (reset fulfilled st) data pending Hp' Hn) by reflexivity.
    split; reflexivity.
  - intros Hi Hpre.
    assert (Hi' : Idle (reset fulfilled st)) by exact Hi.
    unfold submitScan.
    rewrite (idle_accept (reset fulfilled st) data Hi' Hpre) by (intros []).
    simpl. split; [| reflexivity].
    unfold AwaitingFinish. simpl. now apply startsWith_nonempty.
Qed.

(** X9.  The banner has no part in the matching: leaving the banner
    time-outs out of a sequence of events changes neither RecordList nor
    the pending participant. *)
Theorem banner_timeouts_do_not_matter (es : list event) (st : State) :
  let no_timeout e := match e with BannerTimeout => false | _ => true end in
  scannedData (handleAll (filter no_timeout es) st) = scannedData (handleAll es st)
  /\ currentParticipant (handleAll (filter no_timeout es) st)
     = currentParticipant (handleAll es st).
Proof.
  intros no_timeout.
  assert (Hsame : forall data st1 st2,
            scannedData st1 = scannedData st2 ->
            currentParticipant st1 = currentParticipant st2 ->
            handleBarcodeScanned st1 data = handleBarcodeScanned st2 data).
  { intros data st1 st2 Hs Hc. unfold handleBarcodeScanned. now rewrite Hs, Hc. }
  assert (Hrun : forall acts st1 st2,
            scannedData st1 = scannedData st2 ->
            currentParticipant st1 = currentParticipant st2 ->
            scannedData (run acts st1) = scannedData (run acts st2)
            /\ currentParticipant (run acts st1) = currentParticipant (run acts st2)).
  { unfold run. induction acts as [| a acts IH]; intros st1 st2 Hs Hc; simpl; [now split |].
    apply IH; destruct a; simpl; assumption || reflexivity. }
  assert (Hgen : forall es st1 st2,
            scannedData st1 = scannedData st2 ->
            currentParticipant st1 = currentParticipant st2 ->
            scannedData (handleAll (filter no_timeout es) st1) = scannedData (handleAll es st2)
            /\ currentParticipant (handleAll (filter no_timeout es) st1)
               = currentParticipant (handleAll es st2)).
  { clear es st. induction es as [| e es IH]; intros st1 st2 Hs Hc; [now split |].
    destruct e as [data | r |]; simpl.
    - apply IH; unfold submitScan; rewrite (Hsame data st1 st2 Hs Hc);
        now apply Hrun.
    - apply IH; unfold reset; now apply Hrun.
    - apply IH; assumption. }
  now apply Hgen.
Qed.

(** X10.  The uniqueness invariants hold along every sequence of events
    from any well-formed state, such as a record list of an earlier
    session: participants stay pairwise distinct, positions stay pairwise
    distinct, and the pending participant stays outside RecordList. *)
Theorem events_keep_records_unique (es : list event) (st : State) :
  well_formed st ->
  let st' := handleAll es st in
  (forall p, AwaitingFinish st' p -> ~ In p (map participant (scannedData st')))
  /\ (forall i j r1 r2,
        i <> j ->
        nth_error (scannedData st') i = Some r1 ->
        nth_error (scannedData st') j = Some r2 ->
        participant r1 <> participant r2
        /\ JS.strict_equals (position r1) (position r2) = false).
Proof.
  intros Hwf st'.
  assert (Hwf' : well_formed st').
  { subst st'. revert st Hwf. induction es as [| e es IH]; intros st Hwf; [exact Hwf |].
    simpl. apply IH. destruct e as [data | r |]; simpl.
    - now apply well_formed_submitScan.
    - now apply well_formed_reset.
    - now apply well_formed_dismissBanner. }
  destruct Hwf' as [Hpa Hpo Hfr _ _ _]. split.
  - intros p Hp. apply truthy_Some in Hp. now apply Hfr.
  - intros i j r1 r2 Hij H1 H2. split.
    + revert i j r1 r2 Hij H1 H2.
      apply pairwise_sym; [| exact Hpa]. intros x y H Heq. now apply H.
    + revert i j r1 r2 Hij H1 H2.
      apply pairwise_sym; [| exact Hpo]. intros x y H.
      now rewrite strict_equals_sym.
Qed.

Lemma events_keep_records_unique_witness :
  let st := {| scannedData := [ {| participant := "G10k001"; position := JS.toNumber 1 |} ];
               currentParticipant := None;
               bannerMessage := None |} in
  let st' := handleAll [Scanned "G10k002"; BannerTimeout; Scanned "1"; Scanned "2";
                        Scanned "G10k001"] st in
  well_formed st
  /\ (forall p, AwaitingFinish st' p -> ~ In p (map participant (scannedData st'))).
Proof.
  intros st st'.
  assert (Hwf : well_formed st).
  { split; simpl.
    - apply (pairwise_snoc _ []); [apply pairwise_nil | intros x []].
    - apply (pairwise_snoc _ []); [apply pairwise_nil | intros x []].
    - intros p Hp. discriminate Hp.
    - intros p Hp. discriminate Hp.
    - intros r [<- | []]. reflexivity.
    - intros r [<- | []]. reflexivity. }
  split; [exact Hwf |].
  exact (proj1 (events_keep_records_unique
                  [Scanned "G10k002"; BannerTimeout; Scanned "1"; Scanned "2";
                   Scanned "G10k001"] st Hwf)).
Defined.

Lemma scan_after_reset_witness :
  let st := submitScan "G10k007" (submitScan "17" (submitScan "G10k042" initialState)) in
  AwaitingFinish st "G10k007"
  /\ scannedData (submitScan "17" (reset fulfilled st))
     = [ {| participant := "G10k007"; position := JS.toNumber 17 |} ].
Proof.
  intros st.
  assert (Hp : AwaitingFinish st "G10k007") by reflexivity.
  destruct (scan_after_reset st "17") as [H _].
  destruct (H "G10k007" Hp) as [H1 _]; [reflexivity |].
  split; assumption.
Defined.

(** ** Persistence of every list the model can write *)

(** The text of a Record up to its position. *)
Lemma scan_record_prefix (p : string) (e : expecting)
      (elements : list value) (stack : list frame) (tail : string) :
  e = AValue \/ e = AValueOrClose ->
  scan Between (e, InArray elements :: stack)
       ("{" ++ QuoteJSONString "participant" ++ ":" ++ QuoteJSONString p
        ++ "," ++ QuoteJSONString "position" ++ ":" ++ tail)%string
  = scan Between
      (AValue,
       InProperty [ ("participant", Str p) ] "position" :: InArray elements :: stack)
      tail.
Proof.
  intros He. cbn [String.append].
  rewrite (scan_punctuator "{" _ (AKeyOrClose, InObject [] :: InArray elements :: stack))
    by (destruct He as [-> | ->]; reflexivity).
  rewrite scan_quoted. cbn [feed bind].
  rewrite (scan_punctuator ":" _ (AValue, InProperty [] "participant" :: InArray elements :: stack))
    by reflexivity.
  rewrite scan_quoted. cbn [feed complete bind].
  rewrite (scan_punctuator "," _
             (AKey, InObject (addProperty [] "participant" (Str p)) :: InArray elements :: stack))
    by reflexivity.
  rewrite scan_quoted. cbn [feed bind].
  rewrite (scan_punctuator ":" _
             (AValue, InProperty (addProperty [] "participant" (Str p)) "position"
                        :: InArray elements :: stack))
    by reflexivity.
  reflexivity.
Qed.

Lemma reloadedPosition_integer (z : Z) :
  Z.abs z < 2 ^ 53 -> reloadedPosition (JS.toNumber z) = Number (JS.toNumber z).
Proof.
  intros Hz. unfold JS.toNumber, JS.prec, JS.emax, binary_normalize.
  destruct z as [| m | m]; [reflexivity | |].
  - destruct (binary_round_exact false m Hz) as (m' & e' & -> & _). reflexivity.
  - destruct (binary_round_exact true m Hz) as (m' & e' & -> & _). reflexivity.
Qed.

(** Inside an array, the text of a Record that the model can write is
    read back as the reloaded Record. *)
Lemma scan_printable_record (r : ScannedData) :
  printablePosition r ->
  exists text,
    serializeScannedData r = Ok text
    /\ forall e elements stack rest,
         e = AValue \/ e = AValueOrClose ->
         scan Between (e, InArray elements :: stack) (text ++ rest)
         = scan Between (ACommaOrClose, InArray (reloaded r :: elements) :: stack) rest.
Proof.
  destruct r as [p x]. unfold printablePosition. simpl position.
  intros [(z & Hz & Hx) | [Hinf | Hzero]].
  - simpl in Hx. subst x. exists (recordText p z). split.
    + now apply serializeScannedData_integer.
    + intros e elements stack rest He. rewrite scan_record by assumption.
      unfold reloaded, ofScannedData. simpl participant. simpl position.
      now rewrite reloadedPosition_integer.
  - exists ("{" ++ QuoteJSONString "participant" ++ ":" ++ QuoteJSONString p
            ++ "," ++ QuoteJSONString "position" ++ ":" ++ "null" ++ "}")%string.
    split.
    + unfold serializeScannedData, serializeNumber. simpl position. simpl participant.
      rewrite Hinf. reflexivity.
    + intros e elements stack rest He.
      repeat rewrite append_assoc. rewrite scan_record_prefix by assumption.
      destruct x as [s | s | | s m e']; try discriminate Hinf; reflexivity.
  - subst x. exists (recordText p 0). split.
    + reflexivity.
    + intros e elements stack rest He. rewrite scan_record by assumption.
      reflexivity.
Qed.

Lemma scan_printable_rest (l : list ScannedData) :
  Forall printablePosition l ->
  forall elements,
  exists text,
    serializeRest l = Ok text
    /\ scan Between (ACommaOrClose, [InArray elements]) (text ++ "]")
       = Ok (Array (rev elements ++ map reloaded l)).
Proof.
  induction 1 as [| r l Hr Hl IH]; intros elements.
  - exists "". split; [reflexivity |]. simpl. now rewrite app_nil_r.
  - destruct (scan_printable_record r Hr) as (rtext & Hrtext & Hrscan).
    destruct (IH (reloaded r :: elements)) as (text & Htext & Hscan).
    exists ("," ++ rtext ++ text)%string. split.
    + simpl serializeRest. rewrite Hrtext. simpl bind. rewrite Htext. reflexivity.
    + cbn [String.append].
      rewrite (scan_punctuator "," _ (AValue, [InArray elements])) by reflexivity.
      rewrite append_assoc, Hrscan by (now left).
      rewrite Hscan. simpl rev. rewrite <- app_assoc. reflexivity.
Qed.

(** X11.  What saving and loading does to every record list whose
    positions are integers below 2^53, zeros, infinities or NaN: the
    Records come back in the same order with the same participants; a
    position that is not finite comes back as [null], -0 comes back as
    0, and every other position comes back as it was. *)
Theorem persisted_list_reloads_normalised (l : list ScannedData) :
  Forall printablePosition l ->
  exists text,
    saveScannedData l = Ok text
    /\ loadScannedData (Some text) = Ok (Some (Array (map reloaded l))).
Proof.
  intros Hl. unfold saveScannedData. destruct Hl as [| r l Hr Hl].
  - exists "[]". split; reflexivity.
  - destruct (scan_printable_record r Hr) as (rtext & Hrtext & Hrscan).
    destruct (scan_printable_rest l Hl [reloaded r]) as (text & Htext & Hscan).
    exists ("[" ++ rtext ++ text ++ "]")%string. split.
    + simpl stringify. rewrite Hrtext. simpl bind. rewrite Htext. reflexivity.
    + cbn [String.append loadScannedData]. unfold parse.
      rewrite (scan_punctuator "[" _ (AValueOrClose, [InArray []])) by reflexivity.
      rewrite Hrscan by (now right). rewrite Hscan. reflexivity.
Qed.

Lemma persisted_list_reloads_normalised_witness :
  let l := [ {| participant := "G10k042"; position := JS.Infinity |};
             {| participant := "G10k007"; position := JS.negZero |};
             {| participant := "G10k001"; position := JS.toNumber 17 |} ] in
  Forall printablePosition l
  /\ exists text,
       saveScannedData l = Ok text
       /\ loadScannedData (Some text) = Ok (Some (Array (map reloaded l))).
Proof.
  intros l.
  assert (H : Forall printablePosition l).
  { apply Forall_cons; [| apply Forall_cons; [| apply Forall_cons; [| apply Forall_nil]]].
    - right. left. reflexivity.
    - right. right. reflexivity.
    - left. exists 17. split; reflexivity. }
  split; [exact H | exact (persisted_list_reloads_normalised l H)].
Defined.

(** ** The storage during a session and at the next start *)






(** X13.  A successful clear does not leave the storage empty: the
    record list is emptied, the save effect runs, and the storage holds
    the text of the empty list, which the next start loads as an empty
    list.  If that write fails the storage holds nothing.  A clear that
    the storage rejects changes neither the storage nor the record
    list. *)
Theorem clear_then_save (d : Device) (save_result : settled) :
  deviceStep (DClearPressed fulfilled save_result) d
  = Ok {| app := reset fulfilled (app d);
          storedData := match save_result with
                        | fulfilled => Some "[]"
                        | rejected => None
                        end |}
  /\ loadScannedData (Some "[]") = Ok (Some (Array []))
  /\ exists d',
       deviceStep (DClearPressed rejected save_result) d = Ok d'
       /\ storedData d' = storedData d
       /\ scannedData (app d') = scannedData (app d)
       /\ currentParticipant (app d') = currentParticipant (app d).
Proof.
  split; [now destruct save_result |]. split; [reflexivity |].
  eexists. split; [reflexivity |]. repeat split.
Qed.

Lemma asRecordList_ofRecordList (l : list ScannedData) :
  asRecordList (ofRecordList l) = Some l.
Proof.
  unfold asRecordList, ofRecordList.
  induction l as [| [p x] l IH]; [reflexivity |].
  simpl. now rewrite IH.
Qed.

(** X14.  Closing and starting again: if the storage holds the text of
    the record list, and the positions are integers below 2^53, the next
    start shows the same Records in the same order and leaves the same
    text in the storage; the pending participant and the banner are not
    restored.  If the write that follows the load fails, the storage is
    left with the text of the empty list that the first render wrote. *)
Theorem restart_restores_records (d : Device) (mount_save : settled) :
  synced d ->
  Forall safePosition (scannedData (app d)) ->
  startup (storedData d) fulfilled mount_save fulfilled
  = Ok {| app := {| scannedData := scannedData (app d);
                    currentParticipant := None;
                    bannerMessage := None |};
          storedData := storedData d |}
  /\ startup (storedData d) fulfilled fulfilled rejected
     = Ok {| app := {| scannedData := scannedData (app d);
                       currentParticipant := None;
                       bannerMessage := None |};
             storedData := Some "[]" |}.
Proof.
  intros (text & Ht & Hs) Hsafe.
  destruct (parse_stringify _ Hsafe) as (text' & Ht' & Hne & Hp).
  assert (Heq : text' = text)
    by (unfold saveScannedData in Ht; rewrite Ht in Ht'; now injection Ht').
  subst text'.
  assert (Hload : loadScannedData (Some text)
                  = Ok (Some (ofRecordList (scannedData (app d))))).
  { unfold loadScannedData. destruct text as [| c text]; [contradiction |].
    rewrite Hp. reflexivity. }
  assert (Hm : forall r,
            saveEffect r {| app := initialState; storedData := Some text |}
            = Ok {| app := initialState;
                    storedData := match r with
                                  | fulfilled => Some "[]"
                                  | rejected => Some text
                                  end |})
    by (now intros []).
  rewrite Hs. unfold startup. split.
  - rewrite Hm. cbn [bind]. rewrite Hload, asRecordList_ofRecordList.
    unfold saveEffect. cbn [app scannedData]. rewrite Ht. reflexivity.
  - rewrite Hm. cbn [bind]. rewrite Hload, asRecordList_ofRecordList.
    reflexivity.
Qed.

Lemma restart_restores_records_witness :
  let d := {| app := submitScan "G10k007"
                       (submitScan "17" (submitScan "G10k042" initialState));
              storedData :=
                Some ("[{" ++ QuoteJSONString "participant" ++ ":"
                      ++ QuoteJSONString "G10k042" ++ ","
                      ++ QuoteJSONString "position" ++ ":17}]")%string |} in
  synced d
  /\ Forall safePosition (scannedData (app d))
  /\ startup (storedData d) fulfilled fulfilled fulfilled
     = Ok {| app := {| scannedData :=
                         [ {| participant := "G10k042"; position := JS.toNumber 17 |} ];
                       currentParticipant := None;
                       bannerMessage := None |};
             storedData := storedData d |}.
Proof.
  intros d.
  assert (Hs : synced d) by (eexists; split; reflexivity).
  assert (Hsafe : Forall safePosition (scannedData (app d))).
  { apply Forall_cons; [| apply Forall_nil]. exists 17. split; reflexivity. }
  split; [exact Hs |]. split; [exact Hsafe |].
  exact (proj1 (restart_restores_records d fulfilled Hs Hsafe)).
Defined.

(** X15.  A start without usable data: when [getItem] fails, when there
    is no item, when the item is the empty string, or when its text is
    not JSON, the component stays in its initial state; the first render
    has written the text of the empty list over whatever the storage
    held, unless that write failed. *)
Theorem startup_without_usable_data
        (stored : option string) (get_result mount_save load_save : settled) :
  get_result = rejected
  \/ stored = None
  \/ stored = Some ""
  \/ (exists text, stored = Some text /\ parse text = SyntaxError) ->
  startup stored get_result mount_save load_save
  = Ok {| app := initialState;
          storedData := match mount_save with
                        | fulfilled => Some "[]"
                        | rejected => stored
                        end |}.
Proof.
  intros H. unfold startup.
  assert (Hm : saveEffect mount_save {| app := initialState; storedData := stored |}
               = Ok {| app := initialState;
                       storedData := match mount_save with
                                     | fulfilled => Some "[]"
                                     | rejected => stored
                                     end |})
    by (now destruct mount_save).
  rewrite Hm. simpl bind.
  destruct H as [-> | [-> | [-> | (text & -> & Hp)]]]; try reflexivity.
  - now destruct get_result.
  - now destruct get_result.
  - destruct get_result; [| reflexivity].
    unfold loadScannedData. destruct text as [| c text]; [reflexivity |].
    rewrite Hp. reflexivity.
Qed.

Lemma startup_without_usable_data_witness :
  parse "{oops" = SyntaxError
  /\ startup (Some "{oops") fulfilled fulfilled fulfilled
     = Ok {| app := initialState; storedData := Some "[]" |}.
Proof.
  assert (Hp : parse "{oops" = SyntaxError) by reflexivity.
  split; [exact Hp |].
  apply (startup_without_usable_data (Some "{oops") fulfilled fulfilled fulfilled).
  right. right. right. exists "{oops". split; [reflexivity | exact Hp].
Defined.

(** ** What a reachable record list contains *)

(** X16.  In every state reached from the first render, every
    participant of RecordList and the pending participant, if any, start
    with "G10k", and no position of RecordList is NaN. *)
Theorem reachable_records_are_valid (st : State) :
  reachable st ->
  (forall r, In r (scannedData st) ->
             JS.startsWith (participant r) "G10k" = true
             /\ JS.isNaN (position r) = false)
  /\ (forall p, currentParticipant st = Some p ->
                JS.startsWith p "G10k" = true /\ AwaitingFinish st p).
Proof.
  intros Hr. apply reachable_well_formed in Hr.
  destruct Hr as [_ _ _ Hpp Hpre Hnan]. split.
  - intros r Hin. split; [now apply Hpre | now apply Hnan].
  - intros p Hp. pose proof (Hpp p Hp) as Hs. split; [exact Hs |].
    unfold AwaitingFinish. rewrite Hp. now apply startsWith_nonempty.
Qed.

Lemma reachable_records_are_valid_witness :
  let st := submitScan "G10k007" (submitScan "-5" (submitScan "G10k042" initialState)) in
  reachable st
  /\ (forall r, In r (scannedData st) ->
                JS.startsWith (participant r) "G10k" = true
                /\ JS.isNaN (position r) = false).
Proof.
  intros st.
  assert (Hr : reachable st) by (repeat apply reachable_scan; apply reachable_initial).
  split; [exact Hr | exact (proj1 (reachable_records_are_valid st Hr))].
Defined.
